(** * wren-ai-service: chat-completion adapter, description normalizer, recall metric

    A shallow embedding of three Python modules:
    - [eval/metrics/context_recall.py]   (module [ContextRecall]),
    - [src/pipelines/generation/semantics_description.py] (module [SemanticsDescription]),
    - [src/providers/llm/openai.py]      (module [OpenAI]).

    Python objects with mutable attributes become records threaded through a
    state-and-exception monad; raised exceptions are values of [exn]; the
    network, the credential service and the wall clock are oracles passed as
    parameters.  A Python [str] is the string of its code points, for texts
    whose code points are below 256.  Calls to [logger.debug] and
    [logger.info] are left out, except for what evaluating their argument
    can raise ([orjson.dumps] inside the message of [normalize]). *)

From Stdlib Require Import ZArith QArith Ascii String.
From stdpp Require Import gmap strings list.
Local Close Scope Q_scope.
Local Open Scope string_scope.
Local Open Scope nat_scope.
Local Open Scope list_scope.

(** ** Python values

    Values that travel through keyword-argument dictionaries, metadata and
    decoded JSON.  A [float] is carried as the rational it denotes. *)
#[warnings="-register-all"]
Inductive pyval : Type :=
| PNone
| PBool (b : bool)
| PInt (z : Z)
| PFloat (q : Q)
| PStr (s : string)
| PList (l : list pyval)
| PDict (d : list (string * pyval)).

(** ** Exceptions and results *)

(** The exception classes that the three modules raise or let through. *)
Inductive exn : Type :=
| ValueError (msg : string)
| RuntimeError (msg : string)
| TypeError
| KeyError (key : pyval)
| IndexError
| AttributeError
| ZeroDivisionError
| RateLimitError            (* openai.RateLimitError *)
| APIError (kind : string)  (* any other failure reported by the openai client *)
| RefreshError              (* google.auth.exceptions.RefreshError *)
| DefaultCredentialsError.  (* google.auth.exceptions.DefaultCredentialsError *)

Inductive result (A : Type) : Type :=
| Ok (a : A)
| Raise (e : exn).
Arguments Ok {A} a.
Arguments Raise {A} e.

Definition is_ok {A} (r : result A) : bool :=
  match r with Ok _ => true | Raise _ => false end.

#[global] Instance result_ret : MRet result := λ A a, Ok a.
#[global] Instance result_bind : MBind result := λ A B k r,
  match r with
  | Ok a => k a
  | Raise e => Raise e
  end.

#[global] Instance result_fmap : FMap result := λ A B f r,
  match r with
  | Ok a => Ok (f a)
  | Raise e => Raise e
  end.

(** ** A state-and-exception monad

    [M S A] is a computation that reads and writes a state [S] and either
    returns an [A] or raises; the state written before a raise is kept, as
    Python keeps the mutations made before an exception. *)
Definition M (S A : Type) : Type := S → result A * S.

#[global] Instance M_ret {S} : MRet (M S) := λ A a s, (Ok a, s).
#[global] Instance M_bind {S} : MBind (M S) := λ A B k m s,
  match m s with
  | (Ok a, s') => k a s'
  | (Raise e, s') => (Raise e, s')
  end.

Definition raise {S A} (e : exn) : M S A := λ s, (Raise e, s).
Definition get {S} : M S S := λ s, (Ok s, s).
Definition modify {S} (f : S → S) : M S unit := λ s, (Ok tt, f s).
Definition lift {S A} (r : result A) : M S A := λ s, (r, s).
(** [try m] runs [m] and hands its outcome to the caller instead of raising. *)
Definition try {S A} (m : M S A) : M S (result A) :=
  λ s, let '(r, s') := m s in (Ok r, s').

(** ** [eval/metrics/context_recall.py] *)
Module ContextRecall.
Section Metric.

(** The engine configuration is an opaque dictionary handed on to
    [eval.utils.get_contexts_from_sql], which queries the engine over the
    network; both are parameters of the development. *)
Variable engine_config : Type.
Variable get_contexts_from_sql : string → engine_config → result (list string).

(** The two attributes of deepeval's [LLMTestCase] that the metric reads. *)
Record LLMTestCase : Type := {
  expected_output : string;
  retrieval_context : list string;
}.

(** [success] is [None] until a measurement assigns it. *)
Record ContextualRecallMetric : Type := {
  threshold : Q;
  score : Q;
  success : option bool;
  _engine_config : engine_config;
}.

Definition __init__ (engine_config0 : engine_config) : ContextualRecallMetric :=
  {| threshold := 0; score := 0; success := None;
     _engine_config := engine_config0 |}.

(** Python's [a / b] on two lengths: exact quotient, or ZeroDivisionError.
    The [float] that Python returns is the rounding of this rational, which
    keeps its sign and its comparison with [0]. *)
Definition true_div (a b : nat) : result Q :=
  match b with
  | O => Raise ZeroDivisionError
  | S _ => Ok (Z.of_nat a # Pos.of_nat b)%Q
  end.

Definition a_measure (test_case : LLMTestCase) : M ContextualRecallMetric Q :=
  self ← get;
  expected_units ←
    lift (get_contexts_from_sql (expected_output test_case) (_engine_config self));
  let intersection : gset string :=
    list_to_set (retrieval_context test_case) ∩ list_to_set expected_units in
  q ← lift (true_div (size intersection) (length expected_units));
  modify (λ self, {| threshold := threshold self; score := q;
                     success := success self;
                     _engine_config := _engine_config self |});;
  modify (λ self, {| threshold := threshold self; score := score self;
                     success := Some (Qle_bool (threshold self) (score self));
                     _engine_config := _engine_config self |});;
  self ← get;
  mret (score self).

(** [asyncio.run] drives the coroutine to completion. *)
Definition measure (test_case : LLMTestCase) : M ContextualRecallMetric Q :=
  a_measure test_case.

Definition is_successful (self : ContextualRecallMetric) : option bool :=
  success self.

Definition __name__ : string := "ContextualRecall(column-based)".

End Metric.

Arguments threshold {engine_config} _.
Arguments score {engine_config} _.
Arguments success {engine_config} _.
Arguments _engine_config {engine_config} _.
Arguments __init__ {engine_config} _.
Arguments a_measure {engine_config} _ _ _.
Arguments measure {engine_config} _ _ _.
Arguments is_successful {engine_config} _.

(** The number of distinct context units that are both retrieved and
    expected. *)
Definition common (test_case : LLMTestCase) (expected_units : list string) : nat :=
  size (list_to_set (retrieval_context test_case) ∩ list_to_set expected_units
        : gset string).

(** Sample inputs: an engine that knows the columns of two queries. *)
Definition sample_engine (sql : string) (_ : unit) : result (list string) :=
  if String.eqb sql "SELECT id, total FROM orders"
  then Ok ["orders.id"; "orders.total"]
  else Ok [].

Definition sample_case : LLMTestCase :=
  {| expected_output := "SELECT id, total FROM orders";
     retrieval_context := ["orders.id"; "customers.name"] |}.

(** The retrieval context of [sample_case], reordered and with a repeat. *)
Definition shuffled_case : LLMTestCase :=
  {| expected_output := "SELECT id, total FROM orders";
     retrieval_context := ["customers.name"; "orders.id"; "customers.name"] |}.

Definition empty_case : LLMTestCase :=
  {| expected_output := "SELECT 1";
     retrieval_context := ["orders.id"] |}.

End ContextRecall.

(** ** Python built-ins used by the pipeline *)
Module Py.

(** [str.isspace] on the code points below 256. *)
Definition isspace (c : ascii) : bool :=
  let n := nat_of_ascii c in
  ((9 <=? n)%nat && (n <=? 13)%nat) || ((28 <=? n)%nat && (n <=? 32)%nat)
  || (n =? 133)%nat || (n =? 160)%nat.

(** [text.replace(old, new)] for one-character [old] and [new]. *)
Fixpoint replace (old new : ascii) (text : string) : string :=
  match text with
  | EmptyString => EmptyString
  | String c rest =>
      String (if Ascii.eqb c old then new else c) (replace old new rest)
  end.

(** [text.split()]: the maximal runs of non-space characters, in order;
    [word] is the run being read. *)
Fixpoint split_from (word : string) (text : string) : list string :=
  match text with
  | EmptyString => if String.eqb word "" then [] else [word]
  | String c rest =>
      if isspace c
      then (if String.eqb word "" then split_from "" rest
            else word :: split_from "" rest)
      else split_from (word +:+ String c "") rest
  end.
Definition split (text : string) : list string := split_from "" text.

(** [sep.join(parts)] *)
Fixpoint join (sep : string) (parts : list string) : string :=
  match parts with
  | [] => ""
  | [p] => p
  | p :: ps => p +:+ sep +:+ join sep ps
  end.

Fixpoint lstrip (text : string) : string :=
  match text with
  | EmptyString => EmptyString
  | String c rest => if isspace c then lstrip rest else text
  end.
Definition rstrip (text : string) : string :=
  String.rev (lstrip (String.rev text)).
Definition strip (text : string) : string := rstrip (lstrip text).

(** A number as Python compares it: [True == 1 == 1.0]. *)
Definition numeric (v : pyval) : option Q :=
  match v with
  | PBool b => Some (if b then 1 else 0)%Q
  | PInt z => Some (z # 1)%Q
  | PFloat q => Some q
  | _ => None
  end.

(** [a == b] on hashable values, as a dictionary compares its keys. *)
Definition key_eqb (a b : pyval) : bool :=
  match numeric a, numeric b with
  | Some x, Some y => Qeq_bool x y
  | _, _ =>
      match a, b with
      | PNone, PNone => true
      | PStr s, PStr t => String.eqb s t
      | _, _ => false
      end
  end.

Definition hashable (v : pyval) : bool :=
  match v with
  | PList _ | PDict _ => false
  | _ => true
  end.

(** A dictionary with arbitrary hashable keys, in insertion order. *)
Definition dict : Type := list (pyval * pyval).

(** [d[key] = value]: an equal key keeps its place and its first spelling. *)
Fixpoint setitem (d : dict) (key value : pyval) : dict :=
  match d with
  | [] => [(key, value)]
  | (k, v) :: rest =>
      if key_eqb k key then (k, value) :: rest
      else (k, v) :: setitem rest key value
  end.

Fixpoint lookup_str (d : list (string * pyval)) (key : string) : option pyval :=
  match d with
  | [] => None
  | (k, v) :: rest => if String.eqb k key then Some v else lookup_str rest key
  end.

(** [obj[key]] for a string [key]. *)
Definition getitem_str (obj : pyval) (key : string) : result pyval :=
  match obj with
  | PDict d =>
      match lookup_str d key with
      | Some v => Ok v
      | None => Raise (KeyError (PStr key))
      end
  | _ => Raise TypeError
  end.

(** [obj[0]] *)
Definition getitem_0 (obj : pyval) : result pyval :=
  match obj with
  | PList (x :: _) => Ok x
  | PList [] => Raise IndexError
  | PStr (String c _) => Ok (PStr (String c ""))
  | PStr EmptyString => Raise IndexError
  | PDict _ => Raise (KeyError (PInt 0))
  | _ => Raise TypeError
  end.

(** The items a [for] loop draws from [obj]. *)
Definition iter (obj : pyval) : result (list pyval) :=
  match obj with
  | PList l => Ok l
  | PDict d => Ok (map (λ kv, PStr (fst kv)) d)
  | PStr s => Ok (map (λ c, PStr (String c "")) (list_ascii_of_string s))
  | _ => Raise TypeError
  end.

(** [needle in text] on two strings. *)
Fixpoint infix (needle text : string) : bool :=
  String.prefix needle text
  || match text with
     | EmptyString => false
     | String _ rest => infix needle rest
     end.

(** [item in container] for a string [item]: a key of a dictionary, an
    element of a list, a substring of a string. *)
Definition contains (container : pyval) (item : string) : result bool :=
  match container with
  | PDict d => Ok (bool_decide (is_Some (lookup_str d item)))
  | PList l => Ok (existsb (λ v, match v with
                                 | PStr s => String.eqb s item
                                 | _ => false
                                 end) l)
  | PStr s => Ok (infix item s)
  | _ => Raise TypeError
  end.

(** [d.get(key)] on a dictionary with arbitrary hashable keys. *)
Fixpoint getitem (d : dict) (key : pyval) : option pyval :=
  match d with
  | [] => None
  | (k, v) :: rest => if key_eqb k key then Some v else getitem rest key
  end.

(** A word: a non-empty text without white space. *)
Fixpoint spaceless (text : string) : bool :=
  match text with
  | EmptyString => true
  | String c rest => negb (isspace c) && spaceless rest
  end.
Definition is_word (text : string) : bool :=
  negb (String.eqb text "") && spaceless text.

End Py.

(** ** A reference JSON decoder

    [orjson] is an external library; the pipeline below takes its decoder
    and its encoder as parameters.  [Json.loads] is a decoder for the RFC 8259
    grammar over the code points below 256, used to run the pipeline on
    concrete replies.  A number without fraction and exponent decodes to an
    [int], any other number to the rational it spells. *)
Module Json.

(** The double quote. *)
Definition quote : ascii := "034"%char.

(** [q text] is [text] with each apostrophe turned into a double quote; it
    lets a JSON text be written inside a string literal. *)
Definition q (text : string) : string := Py.replace "'" quote text.

Definition is_ws (c : ascii) : bool :=
  let n := nat_of_ascii c in
  (n =? 32)%nat || (n =? 9)%nat || (n =? 10)%nat || (n =? 13)%nat.

Fixpoint skip_ws (s : string) : string :=
  match s with
  | EmptyString => EmptyString
  | String c rest => if is_ws c then skip_ws rest else s
  end.

(** [expect c s]: the text after [c] when [s] starts with [c]. *)
Definition expect (c : ascii) (s : string) : option string :=
  match s with
  | String c' rest => if Ascii.eqb c c' then Some rest else None
  | EmptyString => None
  end.

Fixpoint expect_word (word : string) (s : string) : option string :=
  match word with
  | EmptyString => Some s
  | String c word' =>
      match expect c s with
      | Some rest => expect_word word' rest
      | None => None
      end
  end.

Definition is_digit (c : ascii) : bool :=
  let n := nat_of_ascii c in (48 <=? n)%nat && (n <=? 57)%nat.
Definition digit_val (c : ascii) : Z := Z.of_nat (nat_of_ascii c) - 48.

(** The longest run of digits at the head of [s]: its value appended to
    [acc], the number of digits read, and the text that follows. *)
Fixpoint digits (acc : Z) (count : nat) (s : string) : Z * nat * string :=
  match s with
  | EmptyString => (acc, count, s)
  | String c rest =>
      if is_digit c then digits (10 * acc + digit_val c) (S count) rest
      else (acc, count, s)
  end.

Definition pow10 (m : Z) (e : Z) : Q :=
  if (0 <=? e)%Z then (m * 10 ^ e # 1)%Q
  else (m # Z.to_pos (10 ^ (- e)))%Q.

Definition number (s : string) : option (pyval * string) :=
  let '(negative, s1) :=
    match expect "-" s with Some r => (true, r) | None => (false, s) end in
  let int_part :=
    match expect "0" s1 with
    | Some r => Some (0%Z, r)
    | None =>
        let '(v, count, r) := digits 0 0 s1 in
        if (count =? 0)%nat then None else Some (v, r)
    end in
  match int_part with
  | None => None
  | Some (i, s2) =>
      let frac :=
        match expect "." s2 with
        | None => Some (None, s2)
        | Some r =>
            let '(v, count, r') := digits i 0 r in
            if (count =? 0)%nat then None else Some (Some (v, count), r')
        end in
      match frac with
      | None => None
      | Some (f, s3) =>
          let exponent :=
            match s3 with
            | String c r =>
                if Ascii.eqb c "e" || Ascii.eqb c "E" then
                  let '(minus, r1) :=
                    match expect "-" r with
                    | Some r' => (true, r')
                    | None =>
                        match expect "+" r with
                        | Some r' => (false, r')
                        | None => (false, r)
                        end
                    end in
                  let '(v, count, r2) := digits 0 0 r1 in
                  if (count =? 0)%nat then None
                  else Some (Some (if minus then (- v)%Z else v), r2)
                else Some (None, s3)
            | EmptyString => Some (None, s3)
            end in
          let sign (z : Z) : Z := if negative then (- z)%Z else z in
          match exponent, f with
          | None, _ => None
          | Some (None, s4), None => Some (PInt (sign i), s4)
          | Some (e, s4), _ =>
              let '(mantissa, scale) :=
                match f with
                | Some (v, count) => (v, Z.of_nat count)
                | None => (i, 0%Z)
                end in
              Some (PFloat (pow10 (sign mantissa) (default 0%Z e - scale)), s4)
          end
      end
  end.

Definition hex_val (c : ascii) : option nat :=
  let n := nat_of_ascii c in
  if (48 <=? n)%nat && (n <=? 57)%nat then Some (n - 48)
  else if (65 <=? n)%nat && (n <=? 70)%nat then Some (n - 55)
  else if (97 <=? n)%nat && (n <=? 102)%nat then Some (n - 87)
  else None.

Definition escape (c : ascii) : option ascii :=
  if Ascii.eqb c quote then Some quote
  else if Ascii.eqb c "\" then Some "\"%char
  else if Ascii.eqb c "/" then Some "/"%char
  else if Ascii.eqb c "b" then Some "008"%char
  else if Ascii.eqb c "f" then Some "012"%char
  else if Ascii.eqb c "n" then Some "010"%char
  else if Ascii.eqb c "r" then Some "013"%char
  else if Ascii.eqb c "t" then Some "009"%char
  else None.

(** The characters of a string literal up to its closing quote. *)
Fixpoint str_body (acc : string) (s : string) : option (string * string) :=
  match s with
  | EmptyString => None
  | String c rest =>
      if Ascii.eqb c quote then Some (acc, rest)
      else if Ascii.eqb c "\" then
        match rest with
        | String e rest' =>
            if Ascii.eqb e "u" then
              match rest' with
              | String h1 (String h2 (String h3 (String h4 rest''))) =>
                  match hex_val h1, hex_val h2, hex_val h3, hex_val h4 with
                  | Some a, Some b, Some c', Some d =>
                      let code := (((a * 16 + b) * 16 + c') * 16 + d)%nat in
                      if (code <? 256)%nat
                      then str_body (acc +:+ String (ascii_of_nat code) "") rest''
                      else None
                  | _, _, _, _ => None
                  end
              | _ => None
              end
            else
              match escape e with
              | Some x => str_body (acc +:+ String x "") rest'
              | None => None
              end
        | EmptyString => None
        end
      else if (nat_of_ascii c <? 32)%nat then None
      else str_body (acc +:+ String c "") rest
  end.

(** [d[key] = v] on a decoded object: a repeated key keeps the last value. *)
Fixpoint set_member (d : list (string * pyval)) (key : string) (v : pyval)
  : list (string * pyval) :=
  match d with
  | [] => [(key, v)]
  | (k, v') :: rest =>
      if String.eqb k key then (k, v) :: rest
      else (k, v') :: set_member rest key v
  end.

(** [value fuel s] decodes the value at the head of [s] (no leading white
    space); [elements] and [members] read the rest of an array or object. *)
Fixpoint value (fuel : nat) (s : string) {struct fuel} : option (pyval * string) :=
  match fuel with
  | O => None
  | S fuel =>
      match s with
      | EmptyString => None
      | String c rest =>
          if Ascii.eqb c "{" then
            match expect "}" (skip_ws rest) with
            | Some rest' => Some (PDict [], rest')
            | None => members fuel [] (skip_ws rest)
            end
          else if Ascii.eqb c "[" then
            match expect "]" (skip_ws rest) with
            | Some rest' => Some (PList [], rest')
            | None => elements fuel [] (skip_ws rest)
            end
          else if Ascii.eqb c quote then
            match str_body "" rest with
            | Some (text, rest') => Some (PStr text, rest')
            | None => None
            end
          else
            match expect_word "null" s, expect_word "true" s,
                  expect_word "false" s with
            | Some rest', _, _ => Some (PNone, rest')
            | _, Some rest', _ => Some (PBool true, rest')
            | _, _, Some rest' => Some (PBool false, rest')
            | None, None, None => number s
            end
      end
  end
with elements (fuel : nat) (acc : list pyval) (s : string) {struct fuel}
  : option (pyval * string) :=
  match fuel with
  | O => None
  | S fuel =>
      match value fuel s with
      | None => None
      | Some (v, rest) =>
          let rest := skip_ws rest in
          match expect "," rest, expect "]" rest with
          | Some rest', _ => elements fuel (acc ++ [v]) (skip_ws rest')
          | None, Some rest' => Some (PList (acc ++ [v]), rest')
          | None, None => None
          end
      end
  end
with members (fuel : nat) (acc : list (string * pyval)) (s : string) {struct fuel}
  : option (pyval * string) :=
  match fuel with
  | O => None
  | S fuel =>
      match expect quote s with
      | None => None
      | Some rest =>
          match str_body "" rest with
          | None => None
          | Some (key, rest) =>
              match expect ":" (skip_ws rest) with
              | None => None
              | Some rest =>
                  match value fuel (skip_ws rest) with
                  | None => None
                  | Some (v, rest) =>
                      let rest := skip_ws rest in
                      match expect "," rest, expect "}" rest with
                      | Some rest', _ =>
                          members fuel (set_member acc key v) (skip_ws rest')
                      | None, Some rest' =>
                          Some (PDict (set_member acc key v), rest')
                      | None, None => None
                      end
                  end
              end
          end
      end
  end.

(** What [orjson.dumps] accepts among the values of [pyval]: everything but
    an integer outside of 64 bits.  (The keys of a [PDict] are strings.) *)
Fixpoint encodable (v : pyval) : bool :=
  match v with
  | PInt z => (- 2 ^ 63 <=? z)%Z && (z <? 2 ^ 64)%Z
  | PList l => forallb encodable l
  | PDict d => forallb (λ item, encodable (snd item)) d
  | _ => true
  end.

(** A reference for [orjson.dumps] on a dictionary with string keys:
    whether it returns. *)
Definition dumps (d : gmap string pyval) : bool :=
  forallb (λ item, encodable (snd item)) (map_to_list d).

(** The whole text must be one value between optional white space. *)
Definition loads (text : string) : option pyval :=
  match value (S (String.length text)) (skip_ws text) with
  | Some (v, rest) =>
      match skip_ws rest with
      | EmptyString => Some v
      | _ => None
      end
  | None => None
  end.

End Json.

(** ** [src/pipelines/generation/semantics_description.py] *)
Module SemanticsDescription.

(** [remove_relation_columns]: the comprehension over the columns still to
    visit. *)
Fixpoint keep_plain_columns (columns : list pyval) : result (list pyval) :=
  match columns with
  | [] => Ok []
  | column :: rest =>
      related ← Py.contains column "relationship";
      kept ← keep_plain_columns rest;
      mret (if (related : bool) then kept else column :: kept)
  end.

Definition remove_relation_columns (columns : pyval) : result pyval :=
  columns ← Py.iter columns;
  kept ← keep_plain_columns columns;
  mret (PList kept).

Definition extract (model : pyval) : result pyval :=
  name ← Py.getitem_str model "name";
  columns ← Py.getitem_str model "columns";
  columns ← remove_relation_columns columns;
  properties ← Py.getitem_str model "properties";
  mret (PDict [("name", name); ("columns", columns);
               ("properties", properties)]).

(** [name in selected_models], for a list of strings. *)
Definition selected (name : pyval) (selected_models : list string) : bool :=
  match name with
  | PStr s => bool_decide (s ∈ selected_models)
  | _ => false
  end.

(** The comprehension of [picked_models] over the models still to visit. *)
Fixpoint pick (models : list pyval) (selected_models : list string)
  : result (list pyval) :=
  match models with
  | [] => Ok []
  | model :: rest =>
      name ← Py.getitem_str model "name";
      if selected name selected_models then
        picked ← extract model;
        others ← pick rest selected_models;
        mret (picked :: others)
      else pick rest selected_models
  end.

Definition picked_models (mdl : pyval) (selected_models : list string)
  : result (list pyval) :=
  models ← Py.getitem_str mdl "models";
  models ← Py.iter models;
  pick models selected_models.

Section Normalize.

(** [orjson.loads]: [None] stands for a raised [orjson.JSONDecodeError]. *)
Variable loads : string → option pyval.

(** [orjson.dumps], as far as the pipeline depends on it: whether it returns
    ([true]) or raises [orjson.JSONEncodeError], a subclass of TypeError
    ([false]).  The text it returns only reaches the debug log. *)
Variable dumps : gmap string pyval → bool.

(** The text that [wrapper] hands to the decoder. *)
Definition cleaned (text : string) : string :=
  let text := Py.replace "010" " " text in
  let text := Py.join " " (Py.split text) in
  Py.strip text.

Definition wrapper (text : string) : pyval :=
  match loads (cleaned text) with
  | Some text_dict => text_dict
  | None => PDict []   (* the empty dictionary of the [except] branch *)
  end.

(** [{model["name"]: model for model in models}], filled from [acc]. *)
Fixpoint by_name (acc : Py.dict) (models : list pyval) : result Py.dict :=
  match models with
  | [] => Ok acc
  | model :: rest =>
      name ← Py.getitem_str model "name";
      if Py.hashable name then by_name (Py.setitem acc name model) rest
      else Raise TypeError
  end.

Definition normalize (generate : gmap string pyval) : result Py.dict :=
  (* the message of [logger.debug] is built, whatever the log level, from
     [orjson.dumps(generate, option=orjson.OPT_INDENT_2)] *)
  (if dumps generate then Ok tt else Raise TypeError);;
  reply ← Py.getitem_0 (default PNone (generate !! "replies"));
  match reply with
  | PStr text =>
      let normalized := wrapper text in
      models ← Py.getitem_str normalized "models";
      models ← Py.iter models;
      by_name [] models
  | _ => Raise AttributeError   (* [reply.replace] on a value that is no [str] *)
  end.

End Normalize.

(** *** Vocabulary of the properties *)

(** [named model s]: the model's name is the string [s]. *)
Definition named (model : pyval) (s : string) : Prop :=
  Py.getitem_str model "name" = Ok (PStr s).

(** The last of [models] whose name is the string [s], if any. *)
Definition last_named (s : string) (models : list pyval) : option pyval :=
  last (List.filter (λ model, match Py.getitem_str model "name" with
                              | Ok (PStr t) => String.eqb t s
                              | _ => false
                              end) models).

(** Sample pipeline inputs. *)
Definition generate_of (reply : string) : gmap string pyval :=
  {[ "replies" := PList [PStr reply]; "meta" := PList [PDict []] ]}.

Definition malformed_reply : string := "Sorry, I cannot describe these models.".

(** A data model with two models, one of which has a relationship column. *)
Definition sample_mdl : pyval :=
  PDict [("models",
          PList [ PDict [("name", PStr "orders");
                         ("columns",
                          PList [ PDict [("name", PStr "id")];
                                  PDict [("name", PStr "customer");
                                         ("relationship", PStr "OrdersCustomer")];
                                  PDict [("name", PStr "total")] ]);
                         ("properties", PDict [])];
                  PDict [("name", PStr "customers");
                         ("columns", PList [ PDict [("name", PStr "name")] ]);
                         ("properties", PDict [])] ])].

(** What is picked from [sample_mdl] when "orders" is selected. *)
Definition picked_orders : list pyval :=
  [ PDict [("name", PStr "orders");
           ("columns", PList [ PDict [("name", PStr "id")];
                               PDict [("name", PStr "total")] ]);
           ("properties", PDict [])] ].

(** The models of the sample replies. *)
Definition ranked (name : string) (rank : Z) : pyval :=
  PDict [("name", PStr name); ("rank", PInt rank)].

(** A reply in which two models share a name. *)
Definition repeated_reply : string :=
  Json.q "{'models': [{'name': 'orders', 'rank': 1},
                      {'name': 'customers', 'rank': 2},
                      {'name': 'orders', 'rank': 3}]}".

(** A reply whose models have distinct names. *)
Definition ranked_reply : string :=
  Json.q "{'models': [{'name': 'orders', 'rank': 1},
                      {'name': 'customers', 'rank': 2}]}".

Definition wellformed_reply : string :=
  Json.q "{'models': [
            {'name': 'orders', 'columns': [], 'properties': {'description': 'Orders placed'}},
            {'name': 'customers', 'columns': [], 'properties': {'description': 'Buyers'}}]}".

End SemanticsDescription.

(** ** [src/providers/llm/openai.py] *)
Module OpenAI.

(** A dictionary of keyword arguments or of metadata. *)
Abbreviation kwargs := (gmap string pyval).

Definition LLM_OPENAI_API_BASE : string := "https://api.openai.com/v1".
Definition GENERATION_MODEL : string := "gpt-4o-mini".
Definition GENERATION_MODEL_KWARGS : kwargs :=
  {[ "temperature" := PInt 0;
     "n" := PInt 1;
     "max_tokens" := PInt 4096;
     "response_format" := PDict [("type", PStr "json_object")] ]}.

(** *** haystack dataclasses *)

Inductive ChatRole : Type := ASSISTANT | USER | SYSTEM | FUNCTION.

Definition role_value (r : ChatRole) : string :=
  match r with
  | ASSISTANT => "assistant"
  | USER => "user"
  | SYSTEM => "system"
  | FUNCTION => "function"
  end.

Record ChatMessage : Type := {
  content : string;
  role : ChatRole;
  name : option string;
  meta : kwargs;
}.

Definition from_user (text : string) : ChatMessage :=
  {| content := text; role := USER; name := None; meta := ∅ |}.
Definition from_assistant (text : string) : ChatMessage :=
  {| content := text; role := ASSISTANT; name := None; meta := ∅ |}.

(** The dictionary the OpenAI API expects for one message. *)
Definition to_openai_format (m : ChatMessage) : kwargs :=
  let msg : kwargs :=
    {[ "role" := PStr (role_value (role m)); "content" := PStr (content m) ]} in
  match name m with
  | Some n => if String.eqb n "" then msg else <["name" := PStr n]> msg
  | None => msg
  end.

Record StreamingChunk : Type := {
  chunk_content : string;
  chunk_meta : kwargs;
}.

(** *** openai response types *)

Definition opt_str (s : option string) : pyval :=
  match s with Some s => PStr s | None => PNone end.

(** One choice of a streamed chunk: [index], [delta.content], [finish_reason]. *)
Record ChunkChoice : Type := {
  delta_index : Z;
  delta_content : option string;
  delta_finish_reason : option string;
}.

Record ChatCompletionChunk : Type := {
  chunk_model : string;
  chunk_choices : list ChunkChoice;
}.

(** One choice of a one-shot response: [index], [message.content],
    [finish_reason]. *)
Record Choice : Type := {
  index : Z;
  message_content : option string;
  finish_reason : option string;
}.

(** [usage] is [None] when the backend reports no token usage; otherwise it
    holds the fields of the usage object, as [dict(completion.usage)] lists
    them. *)
Record ChatCompletion : Type := {
  completion_model : string;
  choices : list Choice;
  usage : option (list (string * pyval));
}.

(** An [openai.Stream]: the chunks it delivers, in arrival order, and the
    error that ends it when it does not end normally. *)
Record Stream : Type := {
  delivered : list ChatCompletionChunk;
  broken_by : option exn;
}.

(** What [chat.completions.create] returned, as the two [isinstance] tests
    of [run] tell it apart: an [openai.Stream], a [ChatCompletion], or an
    object of another class.  Among the latter is the [openai.AsyncStream]
    over the chunks of a streamed answer: [AsyncStream] is no subclass of
    [Stream].  Which one the client returns is up to the environment; the
    client that [__init__] builds is described by [AsyncOpenAI] below. *)
Inductive completion : Type :=
| IsStream (s : Stream)
| IsChatCompletion (c : ChatCompletion)
| IsAsyncStream (s : Stream)
| IsOther.

(** The keyword arguments of one call of [chat.completions.create], and the
    key the client holds when it is made. *)
Record request : Type := {
  req_model : string;
  req_messages : list kwargs;
  req_stream : bool;
  req_kwargs : kwargs;
  req_api_key : option string;
}.

(** A [google.auth] credential: its [valid] flag and its [token]. *)
Record Credentials : Type := {
  valid : bool;
  token : option string;
}.

(** *** State

    The mutable objects an [AsyncGenerator] owns (the client's key, the
    Vertex AI credential) and the observable traffic: the requests sent,
    the refreshes asked for, the calls of the streaming callback and the
    warnings logged, each oldest first. *)
Record world : Type := {
  requests : list request;
  refreshes : nat;
  callback_calls : list StreamingChunk;
  warnings : list string;
  client_api_key : option string;
  _vertexai_creds : option Credentials;
}.

Definition record_request (r : request) (w : world) : world :=
  {| requests := requests w ++ [r]; refreshes := refreshes w;
     callback_calls := callback_calls w; warnings := warnings w;
     client_api_key := client_api_key w;
     _vertexai_creds := _vertexai_creds w |}.
Definition record_refresh (c : option Credentials) (w : world) : world :=
  {| requests := requests w; refreshes := S (refreshes w);
     callback_calls := callback_calls w; warnings := warnings w;
     client_api_key := client_api_key w;
     _vertexai_creds := c |}.
Definition record_callback (c : StreamingChunk) (w : world) : world :=
  {| requests := requests w; refreshes := refreshes w;
     callback_calls := callback_calls w ++ [c]; warnings := warnings w;
     client_api_key := client_api_key w;
     _vertexai_creds := _vertexai_creds w |}.
Definition record_warning (msg : string) (w : world) : world :=
  {| requests := requests w; refreshes := refreshes w;
     callback_calls := callback_calls w; warnings := warnings w ++ [msg];
     client_api_key := client_api_key w;
     _vertexai_creds := _vertexai_creds w |}.
Definition set_client_api_key (k : option string) (w : world) : world :=
  {| requests := requests w; refreshes := refreshes w;
     callback_calls := callback_calls w; warnings := warnings w;
     client_api_key := k;
     _vertexai_creds := _vertexai_creds w |}.

(** *** The outside world

    - [backend k r]: the answer of the chat-completions endpoint to request
      [r] when [k] requests were sent before it;
    - [refresh_reply k]: the credential as the [k+1]-th refresh leaves it,
      or the error that refresh raises;
    - [elapsed i]: microseconds between the start of a call of [run] and
      the start of its [i+1]-th attempt;
    - [client_has n]: the client object has an attribute named [n];
    - [accepts k]: [chat.completions.create] has a keyword parameter [k];
    - [auth_default]: what [google.auth.default] finds in the environment. *)
Record environment : Type := {
  backend : nat → request → result completion;
  refresh_reply : nat → result Credentials;
  elapsed : nat → Z;
  client_has : string → bool;
  accepts : string → bool;
  auth_default : result Credentials;
}.

(** The streaming callback: a function of the chunk that returns or raises;
    each call is recorded in the world. *)
Definition callback : Type := StreamingChunk → result unit.

(** The attributes assigned by [__init__] (and by the constructor of
    haystack's [OpenAIGenerator] that it calls). *)
Record AsyncGenerator : Type := {
  api_key : string;
  model : string;
  streaming_callback : option callback;
  api_base_url : option string;
  organization : option string;
  system_prompt : option string;
  generation_kwargs : kwargs;
  timeout : option Q;
}.

Record run_output : Type := {
  replies : list string;
  metas : list kwargs;
}.

Section Adapter.

Variable env : environment.

(** *** Attribute lookup *)

(** The names an [AsyncGenerator] instance and its class define: the
    attributes set during construction and the methods of the class and of
    haystack's [OpenAIGenerator]. *)
Definition attributes : list string :=
  [ "api_key"; "model"; "generation_kwargs"; "streaming_callback";
    "api_base_url"; "organization"; "system_prompt"; "client";
    "_vertexai_creds";
    "__init__"; "__getattr__"; "run"; "to_dict"; "from_dict";
    "_get_telemetry_data"; "_build_chunk"; "_connect_chunks";
    "_build_message"; "_check_finish_reason" ].

(** An attribute fetched from the client object. *)
Inductive client_attribute : Type := ClientAttribute (name : string).

(** [self._vertexai_creds.refresh(auth_req)]: the credential is updated in
    place with what the credential service answers. *)
Definition refresh : M world unit :=
  w ← get;
  match refresh_reply env (refreshes w) with
  | Ok creds => modify (record_refresh (Some creds))
  | Raise e => modify (record_refresh (_vertexai_creds w));; raise e
  end.

Definition __getattr__ (name : string) : M world client_attribute :=
  w ← get;
  match _vertexai_creds w with
  | Some creds =>
      if negb (valid creds) then
        refresh;;
        w ← get;
        if negb (from_option valid false (_vertexai_creds w))
        then raise (RuntimeError "Unable to refresh auth")
        else modify (set_client_api_key
                       (from_option token None (_vertexai_creds w)))
      else mret tt
  | None => mret tt
  end;;
  (* getattr(self.client, name) *)
  if client_has env name then mret (ClientAttribute name)
  else raise AttributeError.

(** [self.name] inside the class, where the instance holds [own] under that
    name.  Python looks the name up in the instance and its class first and
    calls [__getattr__] only when that fails.  A read that falls through gets
    an attribute of the client in place of the generator's own, which the
    callers below cannot use: it ends in AttributeError here. *)
Definition self_attr {A} (name : string) (own : A) : M world A :=
  if bool_decide (name ∈ attributes) then mret own
  else __getattr__ name;; raise AttributeError.

(** *** Helpers inherited from haystack's [OpenAIGenerator] *)

Definition _build_chunk (chunk : ChatCompletionChunk) : result StreamingChunk :=
  match chunk_choices chunk with
  | [] => Raise IndexError
  | choice :: _ =>
      Ok {| chunk_content := default "" (delta_content choice);
            chunk_meta :=
              {[ "model" := PStr (chunk_model chunk);
                 "index" := PInt (delta_index choice);
                 "finish_reason" := opt_str (delta_finish_reason choice) ]} |}
  end.

(** [chunk] is the last chunk the stream delivered, if any. *)
Definition _connect_chunks (chunk : option ChatCompletionChunk)
    (chunks : list StreamingChunk) : result ChatMessage :=
  let complete_response :=
    from_assistant (Py.join "" (map chunk_content chunks)) in
  match chunk with
  | None => Raise AttributeError
  | Some chunk =>
      match chunk_choices chunk with
      | [] => Raise IndexError
      | choice :: _ =>
          Ok {| content := content complete_response;
                role := role complete_response;
                name := name complete_response;
                meta :=
                  {[ "model" := PStr (chunk_model chunk);
                     "index" := PInt 0;
                     "finish_reason" := opt_str (delta_finish_reason choice);
                     "usage" := PDict [] ]} ∪ meta complete_response |}
      end
  end.

(** [dict(completion.usage)] raises TypeError when the usage is [None]. *)
Definition _build_message (completion : ChatCompletion) (choice : Choice)
  : result ChatMessage :=
  let chat_message := from_assistant (default "" (message_content choice)) in
  match usage completion with
  | None => Raise TypeError
  | Some reported =>
      Ok {| content := content chat_message;
            role := role chat_message;
            name := name chat_message;
            meta :=
              {[ "model" := PStr (completion_model completion);
                 "index" := PInt (index choice);
                 "finish_reason" := opt_str (finish_reason choice);
                 "usage" := PDict reported ]} ∪ meta chat_message |}
  end.

Definition is_str (v : pyval) (s : string) : bool :=
  match v with PStr t => String.eqb t s | _ => false end.

(** Each of the two tests logs a warning, recorded here under the finish
    reason that caused it. *)
Definition _check_finish_reason (message : ChatMessage) : M world unit :=
  match meta message !! "finish_reason" with
  | None => raise (KeyError (PStr "finish_reason"))
  | Some reason =>
      (if is_str reason "length"
       then modify (record_warning "length") else mret tt);;
      (if is_str reason "content_filter"
       then modify (record_warning "content_filter") else mret tt)
  end.

(** *** [AsyncGenerator.run] *)

(** [self.client.chat.completions.create(model=, messages=, stream=, **kw)]:
    Python refuses the call, with a TypeError and before anything is sent,
    when [kw] repeats a keyword given by name or holds a keyword that
    [create] does not have; otherwise the request goes out and the backend
    answers. *)
Definition keyword_clash (kw : kwargs) : bool :=
  existsb (λ item, bool_decide (fst item ∈ ["model"; "messages"; "stream"])
                   || negb (accepts env (fst item)))
    (map_to_list kw).

Definition create (model : string) (messages : list kwargs) (stream : bool)
    (kw : kwargs) : M world completion :=
  if keyword_clash kw then raise TypeError
  else
    w ← get;
    let r := {| req_model := model; req_messages := messages;
                req_stream := stream; req_kwargs := kw;
                req_api_key := client_api_key w |} in
    modify (record_request r);;
    lift (backend env (length (requests w)) r).

(** [num_responses > 1] *)
Definition gt_1 (num_responses : pyval) : result bool :=
  match Py.numeric num_responses with
  | Some x => Ok (negb (Qle_bool x 1))
  | None => Raise TypeError
  end.

Definition truthy (s : option string) : bool :=
  match s with
  | Some s => negb (String.eqb s "")
  | None => false
  end.

(** The [for chunk in completion] loop over the chunks still to come;
    [chunk] is the loop variable and [chunks] the list built so far. *)
Fixpoint consume (self : AsyncGenerator) (stream : list ChatCompletionChunk)
    (chunk : option ChatCompletionChunk) (chunks : list StreamingChunk)
  : M world (option ChatCompletionChunk * list StreamingChunk) :=
  match stream with
  | [] => mret (chunk, chunks)
  | chunk :: stream =>
      cb ← (match chunk_choices chunk with
            | [] => mret None
            | _ :: _ => self_attr "streaming_callback" (streaming_callback self)
            end);
      match cb with
      | Some _ =>
          build ← self_attr "_build_chunk" _build_chunk;
          chunk_delta ← lift (build chunk);
          let chunks := (chunks ++ [chunk_delta])%list in
          cb ← self_attr "streaming_callback" (streaming_callback self);
          match cb with
          | Some f =>
              modify (record_callback chunk_delta);;
              lift (f chunk_delta);;
              consume self stream (Some chunk) chunks
          | None => raise TypeError
          end
      | None => consume self stream (Some chunk) chunks
      end
  end.

(** The body of [run], before the [backoff] decorator is applied. *)
Definition run_once (self : AsyncGenerator) (prompt : string)
    (generation_kwargs0 : option kwargs) : M world run_output :=
  let message := from_user prompt in
  sp ← self_attr "system_prompt" (system_prompt self);
  messages ←
    (if truthy sp then
       sp ← self_attr "system_prompt" (system_prompt self);
       mret [from_assistant (default "" sp); message]
     else mret [message]);
  defaults ← self_attr "generation_kwargs" (generation_kwargs self);
  let generation_kwargs := default ∅ generation_kwargs0 ∪ defaults in
  let openai_formatted_messages := map to_openai_format messages in
  _ ← self_attr "client" tt;
  model ← self_attr "model" (model self);
  cb ← self_attr "streaming_callback" (streaming_callback self);
  completion ←
    create model openai_formatted_messages (bool_decide (is_Some cb))
      generation_kwargs;
  completions ←
    match completion with
    | IsStream stream =>
        let num_responses := default (PInt 1) (generation_kwargs !! "n") in
        multiple ← lift (gt_1 num_responses);
        if (multiple : bool) then
          raise (ValueError "Cannot stream multiple responses, please set n=1.")
        else
          '(chunk, chunks) ← consume self (delivered stream) None [];
          from_option raise (mret tt) (broken_by stream);;
          connect ← self_attr "_connect_chunks" _connect_chunks;
          m ← lift (connect chunk chunks);
          mret [m]
    | IsChatCompletion completion =>
        build ← self_attr "_build_message" _build_message;
        lift (mapM (build completion) (choices completion))
    | IsAsyncStream _ | IsOther => mret []
    end;
  check ← self_attr "_check_finish_reason" _check_finish_reason;
  mapM check completions;;
  mret {| replies := map content completions;
          metas := map meta completions |}.

(** *** The [backoff.on_exception] decorator *)

Definition is_RateLimitError (e : exn) : bool :=
  match e with RateLimitError => true | _ => false end.

(** One pass of the retry loop of [backoff] and those after it.  [attempt]
    is [tries - 1] and [remaining] is [max_tries - tries]; the time read at
    the top of the pass is [elapsed env attempt].  Only an error of the
    watched class is retried, and only while tries and time remain; the
    sleep between two passes does nothing but let time go by. *)
Fixpoint retry {A} (max_time : Z) (remaining attempt : nat)
    (target : M world A) : M world A :=
  let elapsed := elapsed env attempt in
  outcome ← try target;
  match outcome with
  | Ok ret => mret ret
  | Raise e =>
      if is_RateLimitError e then
        match remaining with
        | O => raise e                              (* tries == max_tries *)
        | S remaining =>
            if (max_time <=? elapsed)%Z then raise e  (* elapsed >= max_time *)
            else retry max_time remaining (S attempt) target
        end
      else raise e
  end.

(** [max_time] in microseconds, [max_tries] at least one. *)
Definition on_exception {A} (max_time : Z) (max_tries : nat)
    (target : M world A) : M world A :=
  retry max_time (max_tries - 1) 0 target.

Definition max_time : Z := 60 * 1000000.
Definition max_tries : nat := 3.

(** [run] as callers see it: the body under
    [backoff.on_exception(backoff.expo, openai.RateLimitError, max_time=60,
    max_tries=3)]. *)
Definition run (self : AsyncGenerator) (prompt : string)
    (generation_kwargs : option kwargs) : M world run_output :=
  on_exception max_time max_tries (run_once self prompt generation_kwargs).

(** *** Construction *)

Definition new_world (key : string) (creds : option Credentials) : world :=
  {| requests := []; refreshes := 0; callback_calls := []; warnings := [];
     client_api_key := Some key; _vertexai_creds := creds |}.

(** [AsyncGenerator.__init__]: the generator and the objects it owns. *)
Definition __init__ (api_key : string) (model : string)
    (streaming_callback : option callback)
    (api_base_url organization system_prompt : option string)
    (generation_kwargs : option kwargs) (timeout : option Q)
  : result (AsyncGenerator * world) :=
  let self :=
    {| api_key := api_key; model := model;
       streaming_callback := streaming_callback;
       api_base_url := api_base_url; organization := organization;
       system_prompt := system_prompt;
       generation_kwargs := default ∅ generation_kwargs;
       timeout := timeout |} in
  creds ← (if String.prefix "google/" model
           then creds ← auth_default env; mret (Some creds)
           else mret None);
  mret (self, new_world api_key creds).

(** [hasattr(instance, name)]: the attribute is looked up as any other, so a
    name that the instance and its class do not define goes to [__getattr__];
    AttributeError means that there is no such attribute, any other error is
    raised. *)
Definition hasattr (name : string) : M world bool :=
  if bool_decide (name ∈ attributes) then mret true
  else
    outcome ← try (__getattr__ name);
    match outcome with
    | Ok _ => mret true
    | Raise AttributeError => mret false
    | Raise e => raise e
    end.

(** The attributes that haystack's [ComponentMeta.__call__] tests with
    [hasattr] on the new instance, once [__init__] has returned, before it
    assigns them. *)
Definition component_probes : list string :=
  [ "__haystack_output__"; "__haystack_input__" ].

(** The call [AsyncGenerator(...)].  The class is a haystack [@component]:
    the call runs [__init__] and then the tests of [ComponentMeta.__call__]
    on the instance. *)
Definition AsyncGenerator_call (api_key : string) (model : string)
    (streaming_callback : option callback)
    (api_base_url organization system_prompt : option string)
    (generation_kwargs : option kwargs) (timeout : option Q)
  : result (AsyncGenerator * world) :=
  '(self, w) ← __init__ api_key model streaming_callback api_base_url
                 organization system_prompt generation_kwargs timeout;
  match mapM hasattr component_probes w with
  | (Ok _, w') => Ok (self, w')
  | (Raise e, _) => Raise e
  end.

(** *** [OpenAILLMProvider] *)

Record OpenAILLMProvider : Type := {
  _api_key : string;
  _api_base : string;
  _generation_model : string;
  _model_kwargs : kwargs;
  _timeout : option Q;
}.

Definition get_generator (self : OpenAILLMProvider)
    (system_prompt : option string) (generation_kwargs : option kwargs)
  : result (AsyncGenerator * world) :=
  match generation_kwargs with
  | None => Raise TypeError    (* unpacking [None] with [**] *)
  | Some generation_kwargs =>
      AsyncGenerator_call (_api_key self) (_generation_model self) None
        (Some (_api_base self)) None system_prompt
        (Some (_model_kwargs self ∪ generation_kwargs)) (_timeout self)
  end.

(** *** Vocabulary of the properties

    The definitions below are no part of the program: they name what the
    properties speak about, and the lemmas of [AdapterProperties] relate them
    to [run]. *)

(** [AsyncOpenAI env]: the client is an [openai.AsyncOpenAI], as [__init__]
    builds it (line 56).  Its [chat.completions.create] answers a request
    for a stream with an [AsyncStream] and any other request with a
    [ChatCompletion]. *)
Definition AsyncOpenAI : Prop :=
  ∀ k r c, backend env k r = Ok c →
    if req_stream r then ∃ stream, c = IsAsyncStream stream
    else ∃ whole, c = IsChatCompletion whole.

(** The credential of [w] after it has expired: [valid] has become false,
    the token is the old one. *)
Definition expire (w : world) : world :=
  {| requests := requests w; refreshes := refreshes w;
     callback_calls := callback_calls w; warnings := warnings w;
     client_api_key := client_api_key w;
     _vertexai_creds :=
       (λ creds, {| valid := false; token := token creds |})
         <$> _vertexai_creds w |}.

(** The requests a computation sends when started in [w], oldest first. *)
Definition issued {A} (m : M world A) (w : world) : list request :=
  drop (length (requests w)) (requests (snd (m w))).

(** The options in force for a call with per-call options [overrides]. *)
Definition effective (self : AsyncGenerator) (overrides : option kwargs) : kwargs :=
  default ∅ overrides ∪ generation_kwargs self.

(** The messages of a call, in the format of the API. *)
Definition user_message (prompt : string) : kwargs :=
  {[ "role" := PStr "user"; "content" := PStr prompt ]}.
Definition assistant_message (text : string) : kwargs :=
  {[ "role" := PStr "assistant"; "content" := PStr text ]}.
Definition message_list (self : AsyncGenerator) (prompt : string) : list kwargs :=
  match system_prompt self with
  | Some text =>
      if String.eqb text "" then [user_message prompt]
      else [assistant_message text; user_message prompt]
  | None => [user_message prompt]
  end.

(** The request of a call made while the client holds [key]. *)
Definition sent (self : AsyncGenerator) (prompt : string)
    (overrides : option kwargs) (key : option string) : request :=
  {| req_model := model self;
     req_messages := message_list self prompt;
     req_stream := bool_decide (is_Some (streaming_callback self));
     req_kwargs := effective self overrides;
     req_api_key := key |}.

(** What [run] does with the answer [completion] of the backend: the part
    of its body that follows the call of [create]. *)
Definition decode (self : AsyncGenerator) (kw : kwargs) (completion : completion)
  : M world run_output :=
  completions ←
    match completion with
    | IsStream stream =>
        multiple ← lift (gt_1 (default (PInt 1) (kw !! "n")));
        if (multiple : bool) then
          raise (ValueError "Cannot stream multiple responses, please set n=1.")
        else
          '(chunk, chunks) ← consume self (delivered stream) None [];
          from_option raise (mret tt) (broken_by stream);;
          m ← lift (_connect_chunks chunk chunks);
          mret [m]
    | IsChatCompletion completion =>
        lift (mapM (_build_message completion) (choices completion))
    | IsAsyncStream _ | IsOther => mret []
    end;
  mapM _check_finish_reason completions;;
  mret {| replies := map content completions;
          metas := map meta completions |}.

(** The part of the world that only a credential refresh changes. *)
Definition session (w : world) : nat * option Credentials * option string :=
  (refreshes w, _vertexai_creds w, client_api_key w).

(** The warning that a finish reason causes, if any. *)
Definition flagged (reason : option string) : list string :=
  match reason with
  | Some reason =>
      (if String.eqb reason "length" then ["length"] else [])
      ++ (if String.eqb reason "content_filter" then ["content_filter"] else [])
  | None => []
  end.

(** The world after the warnings [msgs] were logged, in order. *)
Definition record_warnings (msgs : list string) (w : world) : world :=
  foldl (λ w msg, record_warning msg w) w msgs.

(** The dictionary that [run] returns, as the pipeline reads it.  Its
    metadata carry the usage as the backend reported it; whether
    [orjson.dumps] accepts it is up to the encoder that the pipeline is
    given. *)
Definition as_dict (out : run_output) : kwargs :=
  {[ "replies" := PList (map PStr (replies out));
     "meta" := PList (map (λ meta, PDict (map_to_list meta)) (metas out)) ]}.

(** [silent m]: [m] sends no request and leaves the session as it is. *)
Definition silent {A} (m : M world A) : Prop :=
  ∀ w, requests (snd (m w)) = requests w ∧ session (snd (m w)) = session w.

End Adapter.

(** *** Sample inputs *)
Module Samples.

Definition unrefreshed : Credentials := {| valid := false; token := None |}.
Definition fresh : Credentials := {| valid := true; token := Some "ya29.fresh" |}.

Definition two_choices : ChatCompletion :=
  {| completion_model := "gpt-4o-mini";
     choices :=
       [ {| index := 0; message_content := Some "first";
            finish_reason := Some "stop" |};
         {| index := 1; message_content := Some "second";
            finish_reason := Some "length" |} ];
     usage := Some [("prompt_tokens", PInt 9); ("completion_tokens", PInt 2);
                    ("total_tokens", PInt 11)] |}.

Definition chunk_of (text : string) (reason : option string)
  : ChatCompletionChunk :=
  {| chunk_model := "gpt-4o-mini";
     chunk_choices := [ {| delta_index := 0; delta_content := Some text;
                           delta_finish_reason := reason |} ] |}.

Definition three_chunks : list ChatCompletionChunk :=
  [ chunk_of "SEL" None; chunk_of "ECT" None; chunk_of " 1" (Some "stop") ].

(** A callback that returns normally on every chunk. *)
Definition recorder : callback := λ _, Ok tt.

(** An environment around a given backend: refreshing yields [refreshed],
    no time goes by between attempts. *)
Definition env_of (answers : nat → request → result completion)
    (refreshed : result Credentials) : environment :=
  {| backend := answers;
     refresh_reply := λ _, refreshed;
     elapsed := λ _, 0%Z;
     client_has := λ n, bool_decide (n ∈ ["api_key"; "chat"; "completions";
                                          "embeddings"; "models"]);
     accepts := λ k, bool_decide (k ∈ ["model"; "messages"; "stream";
                                       "temperature"; "n"; "max_tokens";
                                       "response_format"; "top_p"; "stop";
                                       "seed"]);
     auth_default := Ok unrefreshed |}.

Definition one_shot_backend : nat → request → result completion :=
  λ _ _, Ok (IsChatCompletion two_choices).
(** The backend behind an [AsyncOpenAI] client: a request for a stream is
    answered with an [AsyncStream] over three chunks, any other request with
    a chat completion. *)
Definition streaming_backend : nat → request → result completion :=
  λ _ r, if req_stream r
         then Ok (IsAsyncStream {| delivered := three_chunks;
                                   broken_by := None |})
         else Ok (IsChatCompletion two_choices).
(** The first [k] requests are rate limited, the later ones answered. *)
Definition rate_limited_backend (k : nat) : nat → request → result completion :=
  λ i _, if (i <? k)%nat then Raise RateLimitError
         else Ok (IsChatCompletion two_choices).
Definition failing_backend (e : exn) : nat → request → result completion :=
  λ _ _, Raise e.

Definition generator (model : string) (cb : option callback)
    (system_prompt : option string) (kw : kwargs) : AsyncGenerator :=
  {| api_key := "sk-test"; model := model; streaming_callback := cb;
     api_base_url := Some LLM_OPENAI_API_BASE; organization := None;
     system_prompt := system_prompt; generation_kwargs := kw;
     timeout := Some 120%Q |}.

Definition plain : AsyncGenerator :=
  generator GENERATION_MODEL None (Some "You describe data models.")
    GENERATION_MODEL_KWARGS.
Definition bare : AsyncGenerator :=
  generator GENERATION_MODEL None None GENERATION_MODEL_KWARGS.
Definition streaming : AsyncGenerator :=
  generator GENERATION_MODEL (Some recorder) None {[ "n" := PInt 1 ]}.
Definition streaming_two : AsyncGenerator :=
  generator GENERATION_MODEL (Some recorder) None {[ "n" := PInt 2 ]}.
Definition vertex : AsyncGenerator :=
  generator "google/gemini-1.5-flash" None None GENERATION_MODEL_KWARGS.

(** Environments: a backend that answers at once, one that streams, one
    whose credential service cannot make the credential valid. *)
Definition answering : environment := env_of one_shot_backend (Ok fresh).
Definition streamer : environment := env_of streaming_backend (Ok fresh).
Definition stale : environment := env_of one_shot_backend (Ok unrefreshed).

Definition start : world := new_world "sk-test" None.
(** The world that [__init__] leaves for a Vertex AI generator whose
    credential is not valid yet, before the tests of the component
    decorator. *)
Definition vertex_start : world := new_world "sk-test" (Some unrefreshed).

Definition provider : OpenAILLMProvider :=
  {| _api_key := "sk-test"; _api_base := LLM_OPENAI_API_BASE;
     _generation_model := GENERATION_MODEL;
     _model_kwargs := GENERATION_MODEL_KWARGS;
     _timeout := Some 120%Q |}.

(** The shape of [SEMANTIC_MODEL_KWARGS] of the description pipeline. *)
Definition semantic_kwargs : kwargs :=
  {[ "response_format" :=
       PDict [("type", PStr "json_schema");
              ("json_schema",
               PDict [("name", PStr "semantic_description");
                      ("schema", PDict [])])] ]}.

(** An environment in which the time allowed has run out when the first
    attempt begins, and every request is rate limited. *)
Definition late : environment :=
  {| backend := rate_limited_backend 3;
     refresh_reply := λ _, Ok fresh;
     elapsed := λ _, (61 * 1000000)%Z;
     client_has := client_has answering;
     accepts := accepts answering;
     auth_default := Ok unrefreshed |}.


(** A response with a choice and without usage, as a server that reports no
    token usage sends it. *)
Definition no_usage : ChatCompletion :=
  {| completion_model := "llama3"; usage := None;
     choices := [ {| index := 0; message_content := Some "{}";
                     finish_reason := Some "stop" |} ] |}.
Definition local_server : environment :=
  env_of (λ _ _, Ok (IsChatCompletion no_usage)) (Ok fresh).

(** The second and third request fail as [second] and [third] say; every
    other request is rate limited. *)
Definition scripted (second third : exn) : environment :=
  env_of (λ k _, Raise (if (k =? 1)%nat then second
                        else if (k =? 2)%nat then third
                        else RateLimitError)) (Ok fresh).

(** A Vertex AI provider, and the world of its generator some time after
    construction: the credential was refreshed once, the client holds the
    token of that refresh, and the credential has expired since. *)
Definition vertex_provider : OpenAILLMProvider :=
  {| _api_key := "sk-test"; _api_base := LLM_OPENAI_API_BASE;
     _generation_model := "google/gemini-1.5-flash";
     _model_kwargs := GENERATION_MODEL_KWARGS;
     _timeout := Some 120%Q |}.
Definition lapsed : world :=
  expire (set_client_api_key (token fresh)
            (record_refresh (Some fresh) (new_world "sk-test" (Some unrefreshed)))).

End Samples.

End OpenAI.

(** * Properties *)

(** ** The contextual recall metric *)
Module RecallProperties.
Import ContextRecall.
Section Recall.

Context {engine_config : Type}.
Variable get_contexts_from_sql : string → engine_config → result (list string).

Lemma true_div_nonneg (a b : nat) (q threshold : Q) :
  (threshold == 0)%Q → true_div a b = Ok q → Qle_bool threshold q = true.
Proof.
  intros Hthreshold Hdiv. destruct b as [|b]; [discriminate|].
  injection Hdiv as <-. apply Qle_bool_iff. rewrite Hthreshold.
  unfold Qle. simpl. lia.
Qed.

(** The threshold is the 0 that [__init__] assigns: no measurement changes it. *)
Lemma a_measure_keeps_threshold (self : ContextualRecallMetric engine_config)
    (test_case : LLMTestCase) :
  threshold (__init__ (_engine_config self)) = 0%Q
  ∧ threshold (snd (a_measure get_contexts_from_sql test_case self))
    = threshold self.
Proof.
  split; [reflexivity|].
  unfold a_measure, mbind, M_bind, get, lift; simpl.
  destruct (get_contexts_from_sql _ _) as [units|e]; [|reflexivity].
  destruct units as [|unit units]; reflexivity.
Qed.

(** C10: [a_measure] sets the score to the number of common units over the
    number of expected units; with no expected unit it raises
    ZeroDivisionError and leaves the metric as it was; with at least one,
    [is_successful] answers true afterwards (the threshold being 0). *)
Theorem a_measure_recall (self : ContextualRecallMetric engine_config)
    (test_case : LLMTestCase) (expected_units : list string) :
  (threshold self == 0)%Q →
  get_contexts_from_sql (expected_output test_case) (_engine_config self)
    = Ok expected_units →
  match expected_units with
  | [] =>
      a_measure get_contexts_from_sql test_case self
        = (Raise ZeroDivisionError, self)
  | _ :: _ =>
      let ratio := (Z.of_nat (common test_case expected_units)
                    # Pos.of_nat (length expected_units))%Q in
      ∃ self',
        a_measure get_contexts_from_sql test_case self
          = (Ok ratio, self')
        ∧ score self' = ratio
        ∧ is_successful self' = Some true
  end.
Proof.
  intros Hthreshold Hunits.
  unfold a_measure, mbind, M_bind, get, lift; simpl. rewrite Hunits.
  destruct expected_units as [|unit units]; [reflexivity|].
  cbn [true_div length]. unfold modify, mret, M_ret; simpl.
  eexists. split; [reflexivity|]. split; [reflexivity|].
  unfold is_successful; simpl. f_equal.
  eapply (true_div_nonneg _ (S (length units))); [done|reflexivity].
Qed.

End Recall.

Lemma a_measure_recall_witness :
  (∃ self',
      a_measure sample_engine sample_case (__init__ tt)
        = (Ok (1 # 2)%Q, self')
      ∧ score self' = (1 # 2)%Q
      ∧ is_successful self' = Some true)
  ∧ a_measure sample_engine empty_case (__init__ tt)
      = (Raise ZeroDivisionError, __init__ tt).
Proof.
  split.
  - apply (a_measure_recall sample_engine (__init__ tt) sample_case
             ["orders.id"; "orders.total"]); reflexivity.
  - apply (a_measure_recall sample_engine (__init__ tt) empty_case []);
      reflexivity.
Defined.

End RecallProperties.

(** ** The description normalizer *)
Module NormalizeProperties.
Import SemanticsDescription.
Section Normalizer.

Variable loads : string → option pyval.
Variable dumps : gmap string pyval → bool.

(** The inner [wrapper] does recover from a reply that does not decode:
    it answers the empty dictionary. *)
Lemma wrapper_malformed (text : string) :
  loads (cleaned text) = None → wrapper loads text = PDict [].
Proof. intros Hbad. unfold wrapper. by rewrite Hbad. Qed.

Lemma wrapper_wellformed (text : string) (v : pyval) :
  loads (cleaned text) = Some v → wrapper loads text = v.
Proof. intros Hgood. unfold wrapper. by rewrite Hgood. Qed.

(** C2: when the first reply is a text that does not decode as JSON,
    [normalize] does not return the empty mapping: the empty dictionary that
    [wrapper] substitutes has no key "models", and the lookup that follows
    raises KeyError.  (An output that [orjson.dumps] refuses makes
    [normalize] raise TypeError before it reads the reply: it returns in
    neither case.) *)
Theorem normalize_malformed_raises (generate : gmap string pyval)
    (text : string) (others : list pyval) :
  generate !! "replies" = Some (PList (PStr text :: others)) →
  loads (cleaned text) = None →
  normalize loads dumps generate
  = Raise (if dumps generate then KeyError (PStr "models") else TypeError).
Proof.
  intros Hreplies Hbad. unfold normalize.
  destruct (dumps generate); [|reflexivity].
  rewrite Hreplies. simpl. by rewrite (wrapper_malformed _ Hbad).
Qed.

End Normalizer.

Lemma normalize_malformed_raises_witness :
  normalize Json.loads Json.dumps (generate_of malformed_reply)
    = Raise (KeyError (PStr "models")).
Proof.
  apply (normalize_malformed_raises Json.loads Json.dumps
           (generate_of malformed_reply) malformed_reply []);
    vm_compute; reflexivity.
Defined.

(** A reply that decodes is turned into the mapping keyed by model name. *)
Example normalize_wellformed :
  (λ d, map fst d)
    <$> normalize Json.loads Json.dumps (generate_of wellformed_reply)
    = Ok [PStr "orders"; PStr "customers"].
Proof. vm_compute. reflexivity. Qed.

End NormalizeProperties.

(** ** The chat-completion adapter *)
Module AdapterProperties.
Import OpenAI.

Lemma bind_result {A B} (r : result A) (k : A → result B) :
  (r ≫= k) = match r with Ok a => k a | Raise e => Raise e end.
Proof. reflexivity. Qed.

(** One step of symbolic execution: the head of a sequence is run. *)
Lemma bind_apply {S A B} (m : M S A) (k : A → M S B) (s : S) :
  (m ≫= k) s = match m s with
               | (Ok a, s') => k a s'
               | (Raise e, s') => (Raise e, s')
               end.
Proof. reflexivity. Qed.

Section Adapter.

Variable env : environment.

(** *** Attribute lookup *)

Lemma self_attr_own {A} (name : string) (own : A) (w : world) :
  bool_decide (name ∈ attributes) = true →
  self_attr env name own w = (Ok own, w).
Proof. intros Hown. unfold self_attr. by rewrite Hown. Qed.

(** Every attribute that [run] reads on [self] is found by the ordinary
    lookup, so that [__getattr__] is not consulted. *)
Lemma run_reads_are_own :
  Forall (λ name, bool_decide (name ∈ attributes) = true)
    [ "system_prompt"; "generation_kwargs"; "client"; "model";
      "streaming_callback"; "_build_chunk"; "_connect_chunks";
      "_build_message"; "_check_finish_reason" ].
Proof. repeat constructor. Qed.

(** *** [run] is its request followed by [decode] *)

Lemma to_openai_format_user (prompt : string) :
  to_openai_format (from_user prompt) = user_message prompt.
Proof. reflexivity. Qed.

Lemma to_openai_format_assistant (text : string) :
  to_openai_format (from_assistant text) = assistant_message text.
Proof. reflexivity. Qed.

Lemma consume_eq (self : AsyncGenerator) (stream : list ChatCompletionChunk)
    (chunk : option ChatCompletionChunk) (chunks : list StreamingChunk) (w : world) :
  consume env self stream chunk chunks w =
    match stream with
    | [] => (Ok (chunk, chunks), w)
    | c :: stream =>
        match chunk_choices c, streaming_callback self with
        | _ :: _, Some f =>
            match _build_chunk c with
            | Ok delta =>
                match f delta with
                | Ok _ =>
                    consume env self stream (Some c) (chunks ++ [delta])
                      (record_callback delta w)
                | Raise e => (Raise e, record_callback delta w)
                end
            | Raise e => (Raise e, w)
            end
        | _, _ => consume env self stream (Some c) chunks w
        end
    end.
Proof.
  destruct stream as [|c stream]; [reflexivity|].
  cbn [consume]. rewrite bind_apply.
  destruct (chunk_choices c) as [|choice more] eqn:Hchoices.
  { reflexivity. }
  rewrite self_attr_own by reflexivity.
  destruct (streaming_callback self) as [f|] eqn:Hcb; [|reflexivity].
  rewrite bind_apply, self_attr_own by reflexivity.
  rewrite bind_apply. unfold lift at 1.
  destruct (_build_chunk c) as [delta|e]; [|reflexivity].
  rewrite bind_apply, self_attr_own by reflexivity.
  rewrite bind_apply. unfold modify at 1.
  rewrite bind_apply. unfold lift at 1.
  destruct (f delta); reflexivity.
Qed.

Lemma run_once_eq (self : AsyncGenerator) (prompt : string)
    (overrides : option kwargs) (w : world) :
  run_once env self prompt overrides w =
    if keyword_clash env (effective self overrides) then (Raise TypeError, w)
    else
      let r := sent self prompt overrides (client_api_key w) in
      match backend env (length (requests w)) r with
      | Ok completion =>
          decode env self (effective self overrides) completion
            (record_request r w)
      | Raise e => (Raise e, record_request r w)
      end.
Proof.
  unfold run_once.
  rewrite bind_apply, self_attr_own by reflexivity.
  rewrite bind_apply.
  assert (Hmessages :
    (if truthy (system_prompt self)
     then sp ← self_attr env "system_prompt" (system_prompt self);
          mret [from_assistant (default "" sp); from_user prompt]
     else mret [from_user prompt]) w
    = (Ok (if truthy (system_prompt self)
           then [from_assistant (default "" (system_prompt self)); from_user prompt]
           else [from_user prompt]), w)).
  { destruct (truthy (system_prompt self)); [|reflexivity].
    by rewrite bind_apply, self_attr_own by reflexivity. }
  rewrite Hmessages. clear Hmessages.
  do 4 (rewrite bind_apply, self_attr_own by reflexivity).
  fold (effective self overrides).
  rewrite bind_apply. unfold create.
  destruct (keyword_clash env (effective self overrides)); [reflexivity|].
  rewrite bind_apply. unfold get at 1.
  rewrite bind_apply. unfold modify at 1.
  assert (Hlist :
    map to_openai_format
      (if truthy (system_prompt self)
       then [from_assistant (default "" (system_prompt self)); from_user prompt]
       else [from_user prompt]) = message_list self prompt).
  { unfold message_list, truthy.
    destruct (system_prompt self) as [text|]; [|reflexivity].
    simpl. destruct (String.eqb text ""); reflexivity. }
  rewrite Hlist. clear Hlist.
  fold (sent self prompt overrides (client_api_key w)).
  cbv zeta. unfold lift at 1.
  destruct (backend env (length (requests w)) _) as [completion|e]; [|reflexivity].
  unfold decode. rewrite bind_apply. symmetry. rewrite bind_apply. symmetry.
  reflexivity.
Qed.


(** *** What a call leaves untouched *)

Lemma silent_ret {A} (a : A) : silent (mret a).
Proof. by intros w. Qed.

Lemma silent_raise {A} (e : exn) : silent (raise (A:=A) e).
Proof. by intros w. Qed.

Lemma silent_lift {A} (r : result A) : silent (lift r).
Proof. by intros w. Qed.

Lemma silent_bind {A B} (m : M world A) (k : A → M world B) :
  silent m → (∀ a, silent (k a)) → silent (m ≫= k).
Proof.
  intros Hm Hk w. rewrite bind_apply. specialize (Hm w).
  destruct (m w) as [[a|e] w']; simpl in *; [|done].
  destruct (Hk a w') as [-> ->]. done.
Qed.

Lemma silent_callback (delta : StreamingChunk) :
  silent (modify (record_callback delta)).
Proof. by intros w. Qed.

Lemma silent_warning (msg : string) : silent (modify (record_warning msg)).
Proof. by intros w. Qed.

Create HintDb silent.
#[local] Hint Resolve silent_ret silent_raise silent_lift silent_callback
  silent_warning : silent.

Lemma silent_consume (self : AsyncGenerator) (stream : list ChatCompletionChunk) :
  ∀ chunk chunks, silent (consume env self stream chunk chunks).
Proof.
  induction stream as [|c stream IH]; intros chunk chunks w;
    rewrite consume_eq; [done|].
  destruct (chunk_choices c), (streaming_callback self) as [f|];
    try apply IH.
  destruct (_build_chunk c) as [delta|e]; [|done].
  destruct (f delta); [|done].
  destruct (IH (Some c) (chunks ++ [delta])%list (record_callback delta w))
    as [-> ->]. done.
Qed.

Lemma silent_check_finish_reason (message : ChatMessage) :
  silent (_check_finish_reason message).
Proof.
  unfold _check_finish_reason.
  destruct (meta message !! "finish_reason") as [reason|];
    [|apply silent_raise].
  apply silent_bind; [|intros _];
    case (is_str reason _); auto with silent.
Qed.

Lemma silent_mapM {A B} (f : A → M world B) (l : list A) :
  (∀ a, silent (f a)) → silent (mapM f l).
Proof.
  intros Hf. induction l as [|a l IH]; [apply silent_ret|].
  cbn [mapM]. apply silent_bind; [apply Hf|intros b].
  apply silent_bind; [apply IH|intros bs]. apply silent_ret.
Qed.

Lemma silent_decode (self : AsyncGenerator) (kw : kwargs) (c : completion) :
  silent (decode env self kw c).
Proof.
  unfold decode. apply silent_bind.
  - destruct c as [stream|c|stream|]; auto with silent.
    apply silent_bind; [auto with silent|intros [|]]; [auto with silent|].
    apply silent_bind; [apply silent_consume|intros [chunk chunks]].
    apply silent_bind.
    { destruct (broken_by stream); simpl; auto with silent. }
    intros _. apply silent_bind; auto with silent.
  - intros completions. apply silent_bind; [|auto with silent].
    apply silent_mapM, silent_check_finish_reason.
Qed.

(** One pass of [run]: nothing is sent when Python refuses the keyword
    arguments, one request otherwise; the session is never touched. *)
Lemma run_once_world (self : AsyncGenerator) (prompt : string)
    (overrides : option kwargs) (w : world) :
  let w' := snd (run_once env self prompt overrides w) in
  session w' = session w
  ∧ requests w' =
      if keyword_clash env (effective self overrides) then requests w
      else requests w ++ [sent self prompt overrides (client_api_key w)].
Proof.
  cbv zeta. rewrite run_once_eq.
  destruct (keyword_clash _); [done|]. cbv zeta.
  destruct (backend env _ _) as [c|e]; [|done].
  by destruct (silent_decode self (effective self overrides) c
                 (record_request
                    (sent self prompt overrides (client_api_key w)) w))
    as [-> ->].
Qed.

(** *** The retry loop *)

Lemma retry_eq {A} (limit : Z) (remaining attempt : nat)
    (target : M world A) (w : world) :
  retry env limit remaining attempt target w =
    match target w with
    | (Ok a, w') => (Ok a, w')
    | (Raise e, w') =>
        if is_RateLimitError e then
          match remaining with
          | O => (Raise e, w')
          | S remaining =>
              if (limit <=? elapsed env attempt)%Z then (Raise e, w')
              else retry env limit remaining (S attempt) target w'
          end
        else (Raise e, w')
    end.
Proof.
  destruct remaining; cbn [retry]; rewrite bind_apply; unfold try;
    destruct (target w) as [[a|e] w']; try reflexivity;
    destruct (is_RateLimitError e); try reflexivity.
  destruct (_ <=? _)%Z; reflexivity.
Qed.

Lemma retry_returns {A} (limit : Z) (remaining attempt : nat)
    (target : M world A) (w w' : world) (a : A) :
  target w = (Ok a, w') →
  retry env limit remaining attempt target w = (Ok a, w').
Proof. intros Htarget. by rewrite retry_eq, Htarget. Qed.

Lemma retry_propagates {A} (limit : Z) (remaining attempt : nat)
    (target : M world A) (w w' : world) (e : exn) :
  target w = (Raise e, w') → is_RateLimitError e = false →
  retry env limit remaining attempt target w = (Raise e, w').
Proof. intros Htarget He. by rewrite retry_eq, Htarget, He. Qed.

Lemma retry_again {A} (limit : Z) (remaining attempt : nat)
    (target : M world A) (w w' : world) :
  target w = (Raise RateLimitError, w') →
  (elapsed env attempt < limit)%Z →
  retry env limit (S remaining) attempt target w
    = retry env limit remaining (S attempt) target w'.
Proof.
  intros Htarget Htime. rewrite retry_eq, Htarget. simpl.
  destruct (Z.leb_spec limit (elapsed env attempt)); [lia|done].
Qed.

Lemma retry_gives_up {A} (limit : Z) (attempt : nat)
    (target : M world A) (w w' : world) :
  target w = (Raise RateLimitError, w') →
  retry env limit 0 attempt target w = (Raise RateLimitError, w').
Proof. intros Htarget. by rewrite retry_eq, Htarget. Qed.

(** The requests of a whole call: the same request, once per attempt. *)
Lemma retry_world (self : AsyncGenerator) (prompt : string)
    (overrides : option kwargs) (limit : Z) (remaining : nat) :
  ∀ (attempt : nat) (w : world),
    let w' := snd (retry env limit remaining attempt
                     (run_once env self prompt overrides) w) in
    session w' = session w
    ∧ ∃ k, k ≤ S remaining
           ∧ (if keyword_clash env (effective self overrides)
              then k = 0 else 1 ≤ k)
           ∧ requests w' =
               requests w
               ++ replicate k (sent self prompt overrides (client_api_key w)).
Proof.
  set (clash := keyword_clash env (effective self overrides)).
  assert (Hpass : ∀ w,
    let w1 := snd (run_once env self prompt overrides w) in
    session w1 = session w
    ∧ ∃ k, k ≤ 1 ∧ (if clash then k = 0 else 1 ≤ k)
           ∧ requests w1 =
               requests w
               ++ replicate k (sent self prompt overrides (client_api_key w))).
  { intros w. destruct (run_once_world self prompt overrides w) as [Hs Hr].
    split; [done|]. fold clash in Hr. destruct clash.
    - exists 0. simpl. rewrite app_nil_r. split; [lia|done].
    - exists 1. split; [lia|]. split; [lia|done]. }
  induction remaining as [|remaining IH]; intros attempt w; cbv zeta;
    rewrite retry_eq; specialize (Hpass w); cbv zeta in Hpass;
    destruct (run_once env self prompt overrides w) as [[out|e] w1];
    simpl in Hpass; destruct Hpass as [Hsession (k & Hk & Hclash & Hsent)].
  - split; [done|]. exists k. split; [lia|done].
  - assert (Hsame : (if is_RateLimitError e
                     then (Raise e, w1) else (Raise e, w1))
                    = (Raise (A:=run_output) e, w1))
      by (by destruct (is_RateLimitError e)).
    rewrite Hsame. split; [done|]. exists k. split; [lia|done].
  - split; [done|]. exists k. split; [lia|done].
  - destruct (is_RateLimitError e), (limit <=? elapsed env attempt)%Z;
      try (split; [done|]; exists k; split; [lia|done]).
    destruct (IH (S attempt) w1) as [Hsession' (k' & Hk' & Hclash' & Hsent')].
    split; [congruence|]. exists (k + k'). split; [lia|]. split.
    + destruct clash; lia.
    + rewrite Hsent', Hsent, replicate_add, <- app_assoc.
      do 3 f_equal. unfold session in Hsession. congruence.
Qed.



(** A whole call of [run]: the session is kept, and the requests sent are
    copies of one request, one per attempt and at most three. *)
Lemma run_world (self : AsyncGenerator) (prompt : string)
    (overrides : option kwargs) (w : world) :
  session (snd (run env self prompt overrides w)) = session w
  ∧ ∃ k, k ≤ 3
         ∧ (if keyword_clash env (effective self overrides) then k = 0 else 1 ≤ k)
         ∧ issued (run env self prompt overrides) w
             = replicate k (sent self prompt overrides (client_api_key w)).
Proof.
  destruct (retry_world self prompt overrides max_time 2 0 w)
    as [Hsession (k & Hk & Hclash & Hsent)].
  split; [exact Hsession|]. exists k. split; [exact Hk|]. split; [exact Hclash|].
  unfold issued, run, on_exception. change (max_tries - 1) with 2.
  by rewrite Hsent, drop_app_length.
Qed.

Lemma run_keeps_session (self : AsyncGenerator) (prompt : string)
    (overrides : option kwargs) (w : world) :
  let w' := snd (run env self prompt overrides w) in
  refreshes w' = refreshes w
  ∧ _vertexai_creds w' = _vertexai_creds w
  ∧ client_api_key w' = client_api_key w.
Proof.
  destruct (run_world self prompt overrides w) as [Hsession _].
  unfold session in Hsession. by injection Hsession as Hr Hc Hk.
Qed.

Lemma issued_all (P : request → Prop) (self : AsyncGenerator) (prompt : string)
    (overrides : option kwargs) (w : world) :
  P (sent self prompt overrides (client_api_key w)) →
  let sending := issued (run env self prompt overrides) w in
  (if keyword_clash env (effective self overrides)
   then sending = [] else sending ≠ [])
  ∧ Forall P sending.
Proof.
  intros HP. cbv zeta.
  destruct (run_world self prompt overrides w) as [_ (k & _ & Hclash & ->)].
  split.
  - destruct (keyword_clash _); [by subst k|].
    destruct k as [|k]; [lia|done].
  - by apply Forall_replicate.
Qed.

Lemma run_effective_options_lookup (self : AsyncGenerator) (prompt : string)
    (overrides : option kwargs) (w : world) :
  let sending := issued (run env self prompt overrides) w in
  (if keyword_clash env (effective self overrides)
   then sending = [] else sending ≠ [])
  ∧ Forall (λ r, ∀ key,
              req_kwargs r !! key =
                match default ∅ overrides !! key with
                | Some v => Some v
                | None => generation_kwargs self !! key
                end) sending.
Proof.
  apply issued_all. intros key. simpl. unfold effective.
  rewrite lookup_union.
  by destruct (default ∅ overrides !! key), (generation_kwargs self !! key).
Qed.

(** C6: the options of every request that [run] sends are the adapter's
    defaults with each key of the per-call overrides overwritten: a key of
    the overrides carries their value, any other key its default.  (A
    request goes out unless Python refuses the keywords of the call.) *)
Theorem run_effective_options (self : AsyncGenerator) (prompt : string)
    (overrides : option kwargs) (w : world) :
  let sending := issued (run env self prompt overrides) w in
  (if keyword_clash env (effective self overrides)
   then sending = [] else sending ≠ [])
  ∧ Forall (λ r, ∀ key,
              req_kwargs r !! key =
                match default ∅ overrides !! key with
                | Some v => Some v
                | None => generation_kwargs self !! key
                end) sending.
Proof. apply run_effective_options_lookup. Qed.

(** C8: every request that [run] sends carries, when the adapter has a
    (non-empty) system prompt, that prompt first, under the role
    "assistant", and the user message second; otherwise the user message
    alone. *)
Theorem run_message_list (self : AsyncGenerator) (prompt : string)
    (overrides : option kwargs) (w : world) :
  let sending := issued (run env self prompt overrides) w in
  (if keyword_clash env (effective self overrides)
   then sending = [] else sending ≠ [])
  ∧ Forall (λ r,
              req_messages r =
                let user : kwargs :=
                  {[ "role" := PStr "user"; "content" := PStr prompt ]} in
                match system_prompt self with
                | Some text =>
                    if String.eqb text "" then [user]
                    else [ {[ "role" := PStr "assistant";
                              "content" := PStr text ]}; user ]
                | None => [user]
                end) sending.
Proof. by apply issued_all. Qed.


(** *** Decoding a one-shot response *)

Lemma check_finish_reason_returns (message : ChatMessage) (w : world) :
  is_Some (meta message !! "finish_reason") →
  ∃ w', _check_finish_reason message w = (Ok tt, w')
        ∧ callback_calls w' = callback_calls w.
Proof.
  intros [reason Hreason]. unfold _check_finish_reason. rewrite Hreason.
  rewrite bind_apply.
  destruct (is_str reason "length"), (is_str reason "content_filter");
    eexists; split; reflexivity.
Qed.

Lemma mapM_check_returns (messages : list ChatMessage) :
  Forall (λ m, is_Some (meta m !! "finish_reason")) messages →
  ∀ w, ∃ units w',
    mapM _check_finish_reason messages w = (Ok units, w')
    ∧ callback_calls w' = callback_calls w.
Proof.
  induction 1 as [|m messages Hm _ IH]; intros w.
  - by exists [], w.
  - cbn [mapM]. rewrite bind_apply.
    destruct (check_finish_reason_returns m w Hm) as (w1 & -> & Hcalls1).
    rewrite bind_apply. destruct (IH w1) as (units & w2 & -> & Hcalls2).
    exists (tt :: units), w2. split; [reflexivity|congruence].
Qed.

Lemma decode_returns (self : AsyncGenerator) (kw : kwargs)
    (messages : list ChatMessage) (first : M world (list ChatMessage))
    (w w1 : world) :
  first w = (Ok messages, w1) →
  Forall (λ m, is_Some (meta m !! "finish_reason")) messages →
  ∃ w',
    (completions ← first;
     mapM _check_finish_reason completions;;
     mret {| replies := map content completions;
             metas := map meta completions |}) w
    = (Ok {| replies := map content messages; metas := map meta messages |}, w')
    ∧ callback_calls w' = callback_calls w1.
Proof.
  intros Hfirst Hmeta. rewrite bind_apply, Hfirst, bind_apply.
  destruct (mapM_check_returns messages Hmeta w1) as (units & w2 & -> & Hcalls).
  by exists w2.
Qed.

(** What [_build_message] makes of the choices of a response that reports
    its usage. *)
Lemma mapM_build_reported (c : ChatCompletion)
    (reported : list (string * pyval)) (chosen : list Choice) :
  usage c = Some reported →
  ∃ messages,
    mapM (_build_message c) chosen = Ok messages
    ∧ Forall (λ m, is_Some (meta m !! "finish_reason")) messages
    ∧ map content messages
      = map (λ choice, default "" (message_content choice)) chosen
    ∧ map meta messages
      = map (λ choice,
               {[ "model" := PStr (completion_model c);
                  "index" := PInt (index choice);
                  "finish_reason" := opt_str (finish_reason choice);
                  "usage" := PDict reported ]}) chosen.
Proof.
  intros Hreported. induction chosen as [|choice chosen IH].
  - by exists [].
  - destruct IH as (messages & Hbuilt & Hreasons & Hcontents & Hmetas).
    change (mapM (_build_message c) (choice :: chosen))
      with (y ← _build_message c choice;
            k ← mapM (_build_message c) chosen; mret (y :: k)).
    rewrite Hbuilt. unfold _build_message. rewrite Hreported.
    eexists. split; [reflexivity|]. cbn [map content meta from_assistant].
    rewrite map_union_empty, Hcontents, Hmetas.
    split; [|done]. constructor; [by eexists|exact Hreasons].
Qed.

(** Without a usage, the first choice already makes [_build_message] raise. *)
Lemma mapM_build_missing (c : ChatCompletion) (choice : Choice)
    (chosen : list Choice) :
  usage c = None → mapM (_build_message c) (choice :: chosen) = Raise TypeError.
Proof.
  intros Hmissing.
  change (mapM (_build_message c) (choice :: chosen))
    with (y ← _build_message c choice;
          k ← mapM (_build_message c) chosen; mret (y :: k)).
  unfold _build_message. by rewrite Hmissing.
Qed.

Lemma decode_one_shot (self : AsyncGenerator) (kw : kwargs) (c : ChatCompletion)
    (reported : list (string * pyval)) (w : world) :
  usage c = Some reported →
  ∃ w',
    decode env self kw (IsChatCompletion c) w
    = (Ok {| replies := map (λ choice, default "" (message_content choice))
                            (choices c);
             metas := map (λ choice,
                             {[ "model" := PStr (completion_model c);
                                "index" := PInt (index choice);
                                "finish_reason" := opt_str (finish_reason choice);
                                "usage" := PDict reported ]})
                          (choices c) |}, w')
    ∧ callback_calls w' = callback_calls w.
Proof.
  intros Hreported.
  destruct (mapM_build_reported c reported (choices c) Hreported)
    as (messages & Hbuilt & Hreasons & Hcontents & Hmetas).
  destruct (decode_returns self kw messages
              (lift (mapM (_build_message c) (choices c))) w w)
    as (w' & Hdecode & Hcalls); [by rewrite Hbuilt|exact Hreasons|].
  exists w'. split; [|exact Hcalls].
  unfold decode. rewrite Hdecode. by rewrite Hcontents, Hmetas.
Qed.

Lemma decode_without_usage (self : AsyncGenerator) (kw : kwargs)
    (c : ChatCompletion) (w : world) :
  usage c = None →
  decode env self kw (IsChatCompletion c) w
  = (match choices c with
     | [] => Ok {| replies := []; metas := [] |}
     | _ :: _ => Raise TypeError
     end, w).
Proof.
  intros Hmissing. unfold decode. rewrite bind_apply. unfold lift at 1.
  destruct (choices c) as [|choice chosen]; [reflexivity|].
  by rewrite (mapM_build_missing c choice chosen Hmissing).
Qed.

(** C7 (as the code has it): when the backend answers a call with a one-shot
    response that reports its token usage, [run] returns one reply text and
    one metadata mapping per choice of the response, both in the order of
    the choices.  A response without usage gives no reply: [run] raises
    TypeError on its first choice (and returns nothing when there is no
    choice at all). *)
Theorem run_one_shot (self : AsyncGenerator) (prompt : string)
    (overrides : option kwargs) (w : world) (c : ChatCompletion) :
  keyword_clash env (effective self overrides) = false →
  backend env (length (requests w))
    (sent self prompt overrides (client_api_key w)) = Ok (IsChatCompletion c) →
  match usage c with
  | Some reported =>
      ∃ out w',
        run env self prompt overrides w = (Ok out, w')
        ∧ replies out
            = map (λ choice, default "" (message_content choice)) (choices c)
        ∧ metas out
            = map (λ choice,
                     {[ "model" := PStr (completion_model c);
                        "index" := PInt (index choice);
                        "finish_reason" := opt_str (finish_reason choice);
                        "usage" := PDict reported ]}) (choices c)
        ∧ length (replies out) = length (choices c)
        ∧ length (metas out) = length (choices c)
  | None =>
      run env self prompt overrides w
      = (match choices c with
         | [] => Ok {| replies := []; metas := [] |}
         | _ :: _ => Raise TypeError
         end,
         record_request (sent self prompt overrides (client_api_key w)) w)
  end.
Proof.
  intros Hclash Hanswer.
  destruct (usage c) as [reported|] eqn:Husage.
  - destruct (decode_one_shot self (effective self overrides) c reported
                (record_request (sent self prompt overrides (client_api_key w)) w)
                Husage)
      as (w' & Hdecode & _).
    eexists _, w'. split.
    { apply retry_returns. rewrite run_once_eq, Hclash. cbv zeta.
      rewrite Hanswer. exact Hdecode. }
    cbn [replies metas]. by rewrite !length_map.
  - pose proof (decode_without_usage self (effective self overrides) c
                  (record_request (sent self prompt overrides (client_api_key w)) w)
                  Husage) as Hdecode.
    destruct (choices c) as [|choice chosen].
    + apply retry_returns. rewrite run_once_eq, Hclash. cbv zeta.
      rewrite Hanswer. exact Hdecode.
    + apply retry_propagates; [|reflexivity].
      rewrite run_once_eq, Hclash. cbv zeta. rewrite Hanswer. exact Hdecode.
Qed.


(** *** A streamed response *)

(** What the [AsyncOpenAI] client returns for a request that asks for a
    stream is neither a [Stream] nor a [ChatCompletion] for [run]: nothing
    is read from it. *)
Lemma run_async_stream (self : AsyncGenerator) (prompt : string)
    (overrides : option kwargs) (w : world) (c : completion) :
  AsyncOpenAI env →
  is_Some (streaming_callback self) →
  keyword_clash env (effective self overrides) = false →
  backend env (length (requests w))
    (sent self prompt overrides (client_api_key w)) = Ok c →
  (∃ stream, c = IsAsyncStream stream)
  ∧ run env self prompt overrides w
    = (Ok {| replies := []; metas := [] |},
       record_request (sent self prompt overrides (client_api_key w)) w).
Proof.
  intros Hclient Hcb Hclash Hanswer.
  pose proof (Hclient _ _ _ Hanswer) as Hclass.
  assert (Hstream : req_stream (sent self prompt overrides (client_api_key w))
                    = true) by (simpl; by apply bool_decide_eq_true_2).
  rewrite Hstream in Hclass. destruct Hclass as [stream ->].
  split; [by exists stream|].
  apply retry_returns. rewrite run_once_eq, Hclash. cbv zeta.
  by rewrite Hanswer.
Qed.

(** C5 (as the code has it): the client that [__init__] builds is an
    [AsyncOpenAI], which answers a request for a stream with an
    [AsyncStream]; [run] tests for [Stream].  So with a streaming callback
    configured, whatever chunks the answer delivers, [run] reads none of
    them and calls the callback on none: it returns no reply and no
    metadata, and the world is the one it found plus the request. *)
Theorem run_streamed (self : AsyncGenerator) (prompt : string)
    (overrides : option kwargs) (w : world) (c : completion) :
  AsyncOpenAI env →
  is_Some (streaming_callback self) →
  keyword_clash env (effective self overrides) = false →
  backend env (length (requests w))
    (sent self prompt overrides (client_api_key w)) = Ok c →
  (∃ stream, c = IsAsyncStream stream)
  ∧ run env self prompt overrides w
    = (Ok {| replies := []; metas := [] |},
       record_request (sent self prompt overrides (client_api_key w)) w)
  ∧ callback_calls (snd (run env self prompt overrides w)) = callback_calls w.
Proof.
  intros Hclient Hcb Hclash Hanswer.
  destruct (run_async_stream self prompt overrides w c Hclient Hcb Hclash Hanswer)
    as [Hclass Hrun].
  split; [exact Hclass|]. split; [exact Hrun|]. by rewrite Hrun.
Qed.

(** C1 (as the code has it): with a streaming callback and [n > 1] in the
    options in force, [run] sends its request all the same, asking for a
    stream of [n] candidates.  The test of [n] sits in the branch for a
    [Stream], which the answer of the [AsyncOpenAI] client never enters: the
    call raises no configuration error and returns no reply. *)
Theorem run_streaming_several_candidates (self : AsyncGenerator) (prompt : string)
    (overrides : option kwargs) (w : world) (n : Z) :
  is_Some (streaming_callback self) →
  effective self overrides !! "n" = Some (PInt n) →
  (1 < n)%Z →
  keyword_clash env (effective self overrides) = false →
  let r := sent self prompt overrides (client_api_key w) in
  req_stream r = true
  ∧ req_kwargs r !! "n" = Some (PInt n)
  ∧ (∃ k, issued (run env self prompt overrides) w = replicate (S k) r)
  ∧ (AsyncOpenAI env →
     ∀ c, backend env (length (requests w)) r = Ok c →
          run env self prompt overrides w
          = (Ok {| replies := []; metas := [] |}, record_request r w)).
Proof.
  intros Hcb Hn Hgt Hclash r.
  split; [simpl; by apply bool_decide_eq_true_2|]. split; [exact Hn|]. split.
  - destruct (run_world self prompt overrides w) as [_ (k & _ & Hsome & Hsent)].
    rewrite Hclash in Hsome. destruct k as [|k]; [lia|]. by exists k.
  - intros Hclient c Hanswer.
    by destruct (run_async_stream self prompt overrides w c
                   Hclient Hcb Hclash Hanswer).
Qed.


(** *** Retries *)

Lemma run_once_fails (self : AsyncGenerator) (prompt : string)
    (overrides : option kwargs) (w : world) (e : exn) :
  keyword_clash env (effective self overrides) = false →
  backend env (length (requests w))
    (sent self prompt overrides (client_api_key w)) = Raise e →
  run_once env self prompt overrides w
  = (Raise e, record_request (sent self prompt overrides (client_api_key w)) w).
Proof. intros Hclash Hanswer. rewrite run_once_eq, Hclash. cbv zeta. by rewrite Hanswer. Qed.

(** The last attempt is not retried, whatever it raises. *)
Lemma retry_last {A} (limit : Z) (attempt : nat) (target : M world A) (w : world) :
  retry env limit 0 attempt target w = target w.
Proof.
  rewrite retry_eq. destruct (target w) as [[a|e] w']; [reflexivity|].
  by destruct (is_RateLimitError e).
Qed.

(** C4 (as the code has it): a call makes at most three attempts.  A failure
    that is no rate limit is raised at once, at whichever attempt it occurs,
    and no further request is made.  After two rate-limit answers, within
    the time allowed, the third attempt decides the call: its outcome is what
    the third answer decodes to (for a one-shot response that reports its
    usage, the replies of that response), after three requests; and
    whatever the third attempt raises, a rate limit included, ends the call
    after three requests: no fourth request is made. *)
Theorem run_retry_policy (self : AsyncGenerator) (prompt : string)
    (overrides : option kwargs) (w : world) :
  length (issued (run env self prompt overrides) w) ≤ 3
  ∧ (keyword_clash env (effective self overrides) = false →
     let r := sent self prompt overrides (client_api_key w) in
     let k := length (requests w) in
     (∀ e, backend env k r = Raise e →
           is_RateLimitError e = false →
           run env self prompt overrides w = (Raise e, record_request r w))
     ∧ (∀ e, backend env k r = Raise RateLimitError →
             (elapsed env 0 < max_time)%Z →
             backend env (S k) r = Raise e →
             is_RateLimitError e = false →
             run env self prompt overrides w
             = (Raise e, record_request r (record_request r w)))
     ∧ (backend env k r = Raise RateLimitError →
        backend env (S k) r = Raise RateLimitError →
        (elapsed env 0 < max_time)%Z →
        (elapsed env 1 < max_time)%Z →
        (∀ c, backend env (S (S k)) r = Ok c →
              run env self prompt overrides w
              = decode env self (effective self overrides) c
                  (record_request r (record_request r (record_request r w))))
        ∧ (∀ c reported,
           backend env (S (S k)) r = Ok (IsChatCompletion c) →
           usage c = Some reported →
           ∃ out w',
             run env self prompt overrides w = (Ok out, w')
             ∧ replies out
                 = map (λ choice, default "" (message_content choice))
                     (choices c)
             ∧ requests w' = requests w ++ [r; r; r])
        ∧ (∀ e, backend env (S (S k)) r = Raise e →
                run env self prompt overrides w
                = (Raise e,
                   record_request r (record_request r (record_request r w)))))).
Proof.
  split.
  { destruct (run_world self prompt overrides w) as [_ (k & Hk & _ & ->)].
    by rewrite length_replicate. }
  intros Hclash r k.
  assert (Hlen : ∀ w0, length (requests (record_request r w0))
                       = S (length (requests w0))).
  { intros w0. simpl. rewrite length_app. simpl. lia. }
  unfold run, on_exception. change (max_tries - 1) with 2.
  split; [|split].
  - intros e Hanswer He. apply retry_propagates; [|exact He].
    by apply run_once_fails.
  - intros e H1 Ht0 H2 He.
    rewrite (retry_again _ _ _ _ w (record_request r w));
      [|by apply run_once_fails|exact Ht0].
    apply retry_propagates; [|exact He].
    apply run_once_fails; [exact Hclash|by rewrite Hlen].
  - intros H1 H2 Ht0 Ht1.
    rewrite (retry_again _ _ _ _ w (record_request r w));
      [|by apply run_once_fails|exact Ht0].
    rewrite (retry_again _ _ _ _ _ (record_request r (record_request r w)));
      [|apply run_once_fails; [exact Hclash|by rewrite Hlen]|exact Ht1].
    rewrite retry_last. split; [|split].
    + intros c H3. rewrite run_once_eq, Hclash. cbv zeta.
      rewrite !Hlen. fold k. change (client_api_key _) with (client_api_key w).
      fold r. by rewrite H3.
    + intros c reported H3 Hreported.
      destruct (decode_one_shot self (effective self overrides) c reported
                  (record_request r (record_request r (record_request r w)))
                  Hreported)
        as (w' & Hdecode & _).
      eexists _, w'. split.
      { rewrite run_once_eq, Hclash. cbv zeta.
        rewrite !Hlen. fold k. change (client_api_key _) with (client_api_key w).
        fold r. rewrite H3. exact Hdecode. }
      split; [reflexivity|].
      destruct (silent_decode self (effective self overrides)
                  (IsChatCompletion c)
                  (record_request r (record_request r (record_request r w))))
        as [Hrequests _].
      rewrite Hdecode in Hrequests. simpl in Hrequests. rewrite Hrequests.
      by rewrite <- !app_assoc.
    + intros e H3. apply run_once_fails; [exact Hclash|].
      by rewrite !Hlen.
Qed.

(** *** The provider *)

(** The generator that the call [AsyncGenerator(...)] returns is the one
    that [__init__] has set up. *)
Lemma get_generator_options (provider : OpenAILLMProvider)
    (prompt0 : option string) (passed : kwargs)
    (generator : AsyncGenerator) (w0 : world) :
  get_generator env provider prompt0 (Some passed) = Ok (generator, w0) →
  generation_kwargs generator = _model_kwargs provider ∪ passed
  ∧ model generator = _generation_model provider
  ∧ streaming_callback generator = None.
Proof.
  intros Hbuilt. unfold get_generator, AsyncGenerator_call in Hbuilt.
  rewrite bind_result in Hbuilt.
  destruct (__init__ _ _ _ _ _ _ _ _ _) as [[self w]|e] eqn:Hinit;
    [|discriminate].
  destruct (mapM (hasattr env) component_probes w) as [[probed|e] w'];
    [|discriminate].
  injection Hbuilt as -> _.
  unfold __init__ in Hinit. rewrite bind_result in Hinit.
  destruct (if String.prefix _ _ then _ else _) as [creds|e]; [|discriminate].
  by injection Hinit as <- _.
Qed.

(** C9: the generator that [get_generator] builds has, as its generation
    options, the options passed by the caller overwritten by the provider's
    stored model options: on a key present in both, the stored value wins.
    The merge inside [run] goes the other way: on a key present both in the
    generator's options and in the per-call options, the per-call value is
    the one sent, in every request of the call, and a request is sent unless
    Python refuses the keywords of the call. *)
Theorem get_generator_precedence (provider : OpenAILLMProvider)
    (prompt0 : option string) (passed : kwargs)
    (generator : AsyncGenerator) (w0 : world) :
  get_generator env provider prompt0 (Some passed) = Ok (generator, w0) →
  (∀ key, generation_kwargs generator !! key =
            match _model_kwargs provider !! key with
            | Some v => Some v
            | None => passed !! key
            end)
  ∧ (∀ key stored given,
       _model_kwargs provider !! key = Some stored →
       passed !! key = Some given →
       generation_kwargs generator !! key = Some stored)
  ∧ (∀ key configured given prompt overrides w,
       generation_kwargs generator !! key = Some configured →
       overrides !! key = Some given →
       let sending := issued (run env generator prompt (Some overrides)) w in
       (if keyword_clash env (effective generator (Some overrides))
        then sending = [] else sending ≠ [])
       ∧ Forall (λ r, req_kwargs r !! key = Some given) sending).
Proof.
  intros Hbuilt.
  destruct (get_generator_options provider prompt0 passed generator w0 Hbuilt)
    as [Hmerged _].
  assert (Hlookup : ∀ key, generation_kwargs generator !! key =
            match _model_kwargs provider !! key with
            | Some v => Some v
            | None => passed !! key
            end).
  { intros key. rewrite Hmerged, lookup_union.
    by destruct (_model_kwargs provider !! key), (passed !! key). }
  split; [exact Hlookup|]. split.
  - intros key stored given Hstored _. by rewrite Hlookup, Hstored.
  - intros key configured given prompt overrides w _ Hgiven. cbv zeta.
    destruct (run_effective_options_lookup generator prompt (Some overrides) w)
      as [Hsome Hsent].
    split; [exact Hsome|].
    eapply Forall_impl; [exact Hsent|]. intros r Hr. simpl in Hr.
    by rewrite Hr, Hgiven.
Qed.

End Adapter.

Import Samples.

(** The request of the sample calls. *)
Example sample_request :
  (req_model (sent plain "hi" None (Some "sk-test")),
   req_stream (sent plain "hi" None (Some "sk-test")),
   req_messages (sent plain "hi" None (Some "sk-test")))
  = ("gpt-4o-mini", false,
     [ {[ "role" := PStr "assistant";
          "content" := PStr "You describe data models." ]};
       {[ "role" := PStr "user"; "content" := PStr "hi" ]} ]).
Proof. vm_compute. reflexivity. Qed.

(** Per-call options override the defaults key by key in the request sent. *)
Example sample_overrides :
  map (λ r, (req_kwargs r !! "n", req_kwargs r !! "max_tokens"))
    (issued (run answering plain "hi" (Some {[ "n" := PInt 2 ]})) start)
  = [(Some (PInt 2), Some (PInt 4096))].
Proof. vm_compute. reflexivity. Qed.

(** The sample backend behaves as the [AsyncOpenAI] client does. *)
Lemma streamer_is_async : AsyncOpenAI streamer.
Proof.
  intros k r c Hanswer. simpl in Hanswer. unfold streaming_backend in Hanswer.
  destruct (req_stream r); injection Hanswer as <-; by eexists.
Qed.

(** A response with two choices that reports its usage, and a response with
    one choice and no usage, as a server that reports no token usage sends
    it: for the latter [run] returns no reply, it raises TypeError. *)
Lemma run_one_shot_witness :
  (∃ out w',
     run answering plain "hi" None start = (Ok out, w')
     ∧ replies out = ["first"; "second"]
     ∧ metas out
         = map (λ choice,
                  {[ "model" := PStr "gpt-4o-mini";
                     "index" := PInt (index choice);
                     "finish_reason" := opt_str (finish_reason choice);
                     "usage" := PDict [("prompt_tokens", PInt 9);
                                       ("completion_tokens", PInt 2);
                                       ("total_tokens", PInt 11)] ]})
               (choices two_choices)
     ∧ length (replies out) = 2
     ∧ length (metas out) = 2)
  ∧ length (choices no_usage) = 1
  ∧ run local_server bare "hi" None start
    = (Raise TypeError,
       record_request (sent bare "hi" None (client_api_key start)) start).
Proof.
  split; [|split; [reflexivity|]].
  - apply (run_one_shot answering plain "hi" None start two_choices);
      reflexivity.
  - apply (run_one_shot local_server bare "hi" None start no_usage);
      reflexivity.
Defined.

Lemma run_streamed_witness :
  (∃ stream,
     IsAsyncStream {| delivered := three_chunks; broken_by := None |}
     = IsAsyncStream stream)
  ∧ run streamer streaming "hi" None start
    = (Ok {| replies := []; metas := [] |},
       record_request (sent streaming "hi" None (client_api_key start)) start)
  ∧ callback_calls (snd (run streamer streaming "hi" None start))
    = callback_calls start.
Proof.
  apply (run_streamed streamer streaming "hi" None start
           (IsAsyncStream {| delivered := three_chunks; broken_by := None |})).
  - exact streamer_is_async.
  - by eexists.
  - reflexivity.
  - reflexivity.
Defined.

Lemma run_streaming_several_candidates_witness :
  req_stream (sent streaming_two "hi" None (client_api_key start)) = true
  ∧ req_kwargs (sent streaming_two "hi" None (client_api_key start)) !! "n"
    = Some (PInt 2)
  ∧ (∃ k, issued (run streamer streaming_two "hi" None) start
          = replicate (S k)
              (sent streaming_two "hi" None (client_api_key start)))
  ∧ run streamer streaming_two "hi" None start
    = (Ok {| replies := []; metas := [] |},
       record_request (sent streaming_two "hi" None (client_api_key start))
         start).
Proof.
  destruct (run_streaming_several_candidates streamer streaming_two "hi" None
              start 2) as (Hstream & Hn & Hsent & Hrun).
  - by eexists.
  - reflexivity.
  - lia.
  - reflexivity.
  - split; [exact Hstream|]. split; [exact Hn|]. split; [exact Hsent|].
    apply (Hrun streamer_is_async
             (IsAsyncStream {| delivered := three_chunks; broken_by := None |})).
    reflexivity.
Defined.

(** C4, refuted as stated: the backend limits the first three requests and
    would answer the fourth; the call ends with the rate-limit error after
    its third request, and the fourth is never sent. *)
Lemma three_rate_limits_exhaust_the_call :
  let env := env_of (rate_limited_backend 3) (Ok fresh) in
  let r := sent bare "hi" None (Some "sk-test") in
  backend env 0 r = Raise RateLimitError
  ∧ backend env 1 r = Raise RateLimitError
  ∧ backend env 2 r = Raise RateLimitError
  ∧ backend env 3 r = Ok (IsChatCompletion two_choices)
  ∧ (elapsed env 2 < max_time)%Z
  ∧ fst (run env bare "hi" None start) = Raise RateLimitError
  ∧ issued (run env bare "hi" None) start = [r; r; r].
Proof. cbv zeta. repeat split; vm_compute; reflexivity. Qed.

Lemma run_retry_policy_witness :
  length (issued (run (scripted (APIError "timeout") RateLimitError)
                    bare "hi" None) start) ≤ 3
  ∧ run (env_of (failing_backend (APIError "timeout")) (Ok fresh))
      bare "hi" None start
    = (Raise (APIError "timeout"),
       record_request (sent bare "hi" None (client_api_key start)) start)
  ∧ run (scripted (APIError "timeout") RateLimitError) bare "hi" None start
    = (Raise (APIError "timeout"),
       record_request (sent bare "hi" None (client_api_key start))
         (record_request (sent bare "hi" None (client_api_key start)) start))
  ∧ (∃ out w',
       run (env_of (rate_limited_backend 2) (Ok fresh)) bare "hi" None start
         = (Ok out, w')
       ∧ replies out = ["first"; "second"]
       ∧ length (requests w') = 3)
  ∧ run (scripted RateLimitError (APIError "timeout")) bare "hi" None start
    = (Raise (APIError "timeout"),
       record_request (sent bare "hi" None (client_api_key start))
         (record_request (sent bare "hi" None (client_api_key start))
            (record_request (sent bare "hi" None (client_api_key start))
               start))).
Proof.
  split; [|split; [|split; [|split]]].
  - apply (run_retry_policy (scripted (APIError "timeout") RateLimitError)
             bare "hi" None start).
  - apply (run_retry_policy
             (env_of (failing_backend (APIError "timeout")) (Ok fresh))
             bare "hi" None start); reflexivity.
  - destruct (run_retry_policy (scripted (APIError "timeout") RateLimitError)
                bare "hi" None start) as [_ Hpolicy].
    destruct (Hpolicy eq_refl) as (_ & Hsecond & _).
    apply Hsecond; reflexivity.
  - destruct (run_retry_policy (env_of (rate_limited_backend 2) (Ok fresh))
                bare "hi" None start) as [_ Hpolicy].
    destruct (Hpolicy eq_refl) as (_ & _ & Hthird).
    destruct (Hthird eq_refl eq_refl) as (_ & Hanswered & _);
      [reflexivity|reflexivity|].
    destruct (Hanswered two_choices _ eq_refl eq_refl)
      as (out & w' & Hrun & Hreplies & Hsent).
    exists out, w'. split; [exact Hrun|]. split; [exact Hreplies|].
    rewrite Hsent. reflexivity.
  - destruct (run_retry_policy (scripted RateLimitError (APIError "timeout"))
                bare "hi" None start) as [_ Hpolicy].
    destruct (Hpolicy eq_refl) as (_ & _ & Hthird).
    destruct (Hthird eq_refl eq_refl) as (_ & _ & Hfailed);
      [reflexivity|reflexivity|].
    apply Hfailed. reflexivity.
Defined.

Lemma get_generator_precedence_witness :
  ∃ generator w0,
    get_generator answering provider (Some "You describe data models.")
      (Some semantic_kwargs) = Ok (generator, w0)
    ∧ semantic_kwargs !! "response_format"
      = Some (PDict [("type", PStr "json_schema");
                     ("json_schema",
                      PDict [("name", PStr "semantic_description");
                             ("schema", PDict [])])])
    ∧ generation_kwargs generator !! "response_format"
      = Some (PDict [("type", PStr "json_object")])
    ∧ issued (run answering generator "hi"
                (Some {[ "response_format" := PStr "text" ]})) w0 ≠ []
    ∧ Forall (λ r, req_kwargs r !! "response_format" = Some (PStr "text"))
        (issued (run answering generator "hi"
                   (Some {[ "response_format" := PStr "text" ]})) w0).
Proof.
  eexists _, _. split; [reflexivity|]. split; [reflexivity|].
  edestruct (get_generator_precedence answering provider
               (Some "You describe data models.") semantic_kwargs)
    as (_ & Hstored & Hcall); [reflexivity|].
  split; [eapply (Hstored "response_format"); reflexivity|].
  destruct (Hcall "response_format" (PDict [("type", PStr "json_object")])
              (PStr "text") "hi"
              {[ "response_format" := PStr "text" ]} start)
    as [Hsome Hsent]; [reflexivity|reflexivity|].
  split; [exact Hsome|exact Hsent].
Defined.

End AdapterProperties.

(** ** More on the contextual recall metric *)
Module MetricProperties.
Import ContextRecall.
#[local] Set Warnings "-clear-no-such-hyp".
Section Metric.

Context {engine_config : Type}.
Variable get_contexts_from_sql : string → engine_config → result (list string).

Lemma size_list_to_set_le (l : list string) :
  size (list_to_set l : gset string) ≤ length l.
Proof.
  induction l as [|x l IH]; [cbn [list_to_set length]; by rewrite size_empty|].
  cbn [list_to_set length].
  destruct (decide (x ∈ (list_to_set l : gset string))) as [Hin|Hout].
  - assert (({[x]} ∪ list_to_set l : gset string) = list_to_set l) as ->
      by set_solver.
    lia.
  - rewrite size_union by set_solver. rewrite size_singleton. lia.
Qed.

Lemma size_list_to_set_NoDup (l : list string) :
  size (list_to_set l : gset string) = length l → NoDup l.
Proof.
  induction l as [|x l IH]; [constructor|].
  cbn [list_to_set length]. intros Hsize.
  pose proof (size_list_to_set_le l) as Hle.
  destruct (decide (x ∈ (list_to_set l : gset string))) as [Hin|Hout].
  - assert (({[x]} ∪ list_to_set l : gset string) = list_to_set l) as Hsame
      by set_solver.
    rewrite Hsame in Hsize. lia.
  - rewrite size_union, size_singleton in Hsize by set_solver.
    constructor; [by rewrite elem_of_list_to_set in Hout|]. apply IH. lia.
Qed.

Lemma common_le (test_case : LLMTestCase) (expected_units : list string) :
  common test_case expected_units ≤ length expected_units.
Proof.
  unfold common. etrans; [|apply size_list_to_set_le].
  apply subseteq_size. set_solver.
Qed.

(** What a call of [a_measure] can do, case by case. *)
Lemma a_measure_cases (self : ContextualRecallMetric engine_config)
    (test_case : LLMTestCase) :
  match get_contexts_from_sql (expected_output test_case) (_engine_config self) with
  | Raise e =>
      a_measure get_contexts_from_sql test_case self = (Raise e, self)
  | Ok [] =>
      a_measure get_contexts_from_sql test_case self
        = (Raise ZeroDivisionError, self)
  | Ok (unit :: units) =>
      let ratio := (Z.of_nat (common test_case (unit :: units))
                    # Pos.of_nat (S (length units)))%Q in
      a_measure get_contexts_from_sql test_case self
        = (Ok ratio,
           {| threshold := threshold self; score := ratio;
              success := Some (Qle_bool (threshold self) ratio);
              _engine_config := _engine_config self |})
  end.
Proof.
  unfold a_measure, mbind, M_bind, get, lift; simpl.
  destruct (get_contexts_from_sql _ _) as [[|unit units]|e]; reflexivity.
Qed.

(** X1: whenever [a_measure] returns a score, the score lies between 0 and
    1. *)
Theorem a_measure_score_bounds (self self' : ContextualRecallMetric engine_config)
    (test_case : LLMTestCase) (q : Q) :
  a_measure get_contexts_from_sql test_case self = (Ok q, self') →
  (0 <= q)%Q ∧ (q <= 1)%Q.
Proof.
  intros Hmeasure. pose proof (a_measure_cases self test_case) as Hcases.
  destruct (get_contexts_from_sql _ _) as [[|unit units]|e];
    rewrite Hmeasure in Hcases; try discriminate.
  injection Hcases as -> _.
  pose proof (common_le test_case (unit :: units)) as Hle. cbn [length] in Hle.
  unfold Qle. cbn [Qnum Qden]. split; lia.
Qed.

(** X2: the score is 1 exactly when the expected units are pairwise distinct
    and all of them were retrieved; a repeated expected unit keeps the score
    below 1 even when every unit was retrieved. *)
Theorem a_measure_full_score (self self' : ContextualRecallMetric engine_config)
    (test_case : LLMTestCase) (expected_units : list string) (q : Q) :
  get_contexts_from_sql (expected_output test_case) (_engine_config self)
    = Ok expected_units →
  a_measure get_contexts_from_sql test_case self = (Ok q, self') →
  (q == 1)%Q ↔
    NoDup expected_units
    ∧ ∀ unit, unit ∈ expected_units → unit ∈ retrieval_context test_case.
Proof.
  intros Hunits Hmeasure. pose proof (a_measure_cases self test_case) as Hcases.
  rewrite Hunits in Hcases. destruct expected_units as [|unit units];
    rewrite Hmeasure in Hcases; [discriminate|].
  injection Hcases as -> _. clear Hmeasure Hunits.
  set (expected := unit :: units).
  assert (Hone : ((Z.of_nat (common test_case expected)
                   # Pos.of_nat (S (length units))) == 1)%Q
                 ↔ common test_case expected = length expected).
  { unfold Qeq. subst expected. cbn [Qnum Qden length]. lia. }
  rewrite Hone. unfold common. split.
  - intros Hsize.
    pose proof (size_list_to_set_le expected) as Hle.
    assert (Hsub : size (list_to_set (retrieval_context test_case)
                          ∩ list_to_set expected : gset string)
                   ≤ size (list_to_set expected : gset string))
      by (apply subseteq_size; set_solver).
    split; [apply size_list_to_set_NoDup; lia|].
    assert (Heq : (list_to_set (retrieval_context test_case)
                   ∩ list_to_set expected : gset string)
                  = list_to_set expected)
      by (apply set_subseteq_size_eq; [set_solver|lia]).
    intros x Hx. set_solver.
  - intros [Hnodup Hall].
    rewrite <- (size_list_to_set (C:=gset string) expected Hnodup).
    f_equal. set_solver.
Qed.

(** X3: a measurement that raises leaves the metric exactly as it was, so
    that [score] and [is_successful] still report the previous measurement;
    it raises either what [get_contexts_from_sql] raised or, on an empty list
    of expected units, ZeroDivisionError. *)
Theorem a_measure_failure_keeps_metric
    (self self' : ContextualRecallMetric engine_config)
    (test_case : LLMTestCase) (e : exn) :
  a_measure get_contexts_from_sql test_case self = (Raise e, self') →
  self' = self
  ∧ (get_contexts_from_sql (expected_output test_case) (_engine_config self)
       = Raise e
     ∨ (get_contexts_from_sql (expected_output test_case) (_engine_config self)
          = Ok []
        ∧ e = ZeroDivisionError)).
Proof.
  intros Hmeasure. pose proof (a_measure_cases self test_case) as Hcases.
  destruct (get_contexts_from_sql _ _) as [[|unit units]|e'];
    rewrite Hmeasure in Hcases; try discriminate;
    injection Hcases as -> ->; auto.
Qed.

(** X4: the outcome depends on the retrieval context only through the set of
    its elements: neither the order nor the repetition of retrieved units
    changes the score. *)
Theorem a_measure_retrieval_as_set (self : ContextualRecallMetric engine_config)
    (test_case test_case' : LLMTestCase) :
  expected_output test_case = expected_output test_case' →
  (∀ unit, unit ∈ retrieval_context test_case
           ↔ unit ∈ retrieval_context test_case') →
  a_measure get_contexts_from_sql test_case self
  = a_measure get_contexts_from_sql test_case' self.
Proof.
  intros Hsql Hsame.
  pose proof (a_measure_cases self test_case) as Hleft.
  pose proof (a_measure_cases self test_case') as Hright.
  rewrite <- Hsql in Hright.
  destruct (get_contexts_from_sql _ _) as [[|unit units]|e];
    rewrite Hleft, Hright; try reflexivity.
  assert (Hcommon : common test_case (unit :: units)
                    = common test_case' (unit :: units)).
  { unfold common. f_equal. set_solver. }
  cbv zeta. by rewrite Hcommon.
Qed.

End Metric.

Lemma a_measure_score_bounds_witness : (0 <= 1 # 2)%Q ∧ (1 # 2 <= 1)%Q.
Proof.
  apply (a_measure_score_bounds sample_engine (__init__ tt)
           (snd (a_measure sample_engine sample_case (__init__ tt)))
           sample_case).
  vm_compute. reflexivity.
Defined.

Lemma a_measure_full_score_witness :
  ((1 # 2 == 1)%Q ↔
     NoDup ["orders.id"; "orders.total"]
     ∧ ∀ unit, unit ∈ ["orders.id"; "orders.total"]
               → unit ∈ retrieval_context sample_case).
Proof.
  apply (a_measure_full_score sample_engine (__init__ tt)
           (snd (a_measure sample_engine sample_case (__init__ tt)))
           sample_case); vm_compute; reflexivity.
Defined.

Lemma a_measure_failure_keeps_metric_witness :
  __init__ tt = __init__ tt
  ∧ (sample_engine (expected_output empty_case) tt = Raise ZeroDivisionError
     ∨ (sample_engine (expected_output empty_case) tt = Ok []
        ∧ ZeroDivisionError = ZeroDivisionError)).
Proof.
  apply (a_measure_failure_keeps_metric sample_engine (__init__ tt) (__init__ tt)
           empty_case ZeroDivisionError).
  reflexivity.
Defined.

Lemma a_measure_retrieval_as_set_witness :
  a_measure sample_engine sample_case (__init__ tt)
  = a_measure sample_engine shuffled_case (__init__ tt).
Proof.
  apply (a_measure_retrieval_as_set sample_engine (__init__ tt)
           sample_case shuffled_case); [reflexivity|].
  intros unit. unfold sample_case, shuffled_case. cbn [retrieval_context].
  set_solver.
Defined.

End MetricProperties.

(** ** The description pipeline: [picked_models] *)
Module PickProperties.
Import SemanticsDescription.

Lemma bind_result_ok {A B} (a : A) (k : A → result B) : (Ok a ≫= k) = k a.
Proof. reflexivity. Qed.

Lemma bind_ok {A B} (r : result A) (k : A → result B) (b : B) :
  (r ≫= k) = Ok b → ∃ a, r = Ok a ∧ k a = Ok b.
Proof. destruct r as [a|e]; [by exists a|discriminate]. Qed.

(** What [keep_plain_columns] keeps: the columns that do not contain
    "relationship", in their order. *)
Lemma keep_plain_columns_spec (columns kept : list pyval) :
  keep_plain_columns columns = Ok kept →
  Forall (λ c, is_ok (Py.contains c "relationship") = true) columns
  ∧ kept = List.filter
             (λ c, match Py.contains c "relationship" with
                   | Ok related => negb related
                   | Raise _ => false
                   end) columns.
Proof.
  revert kept. induction columns as [|c columns IH]; intros kept Hkept.
  - injection Hkept as <-. by split.
  - cbn [keep_plain_columns] in Hkept.
    apply bind_ok in Hkept as (related & Hrelated & Hkept).
    apply bind_ok in Hkept as (rest & Hrest & Hkept).
    injection Hkept as <-. destruct (IH rest Hrest) as [Hall ->].
    split; [constructor; [by rewrite Hrelated|exact Hall]|].
    cbn [List.filter]. rewrite Hrelated. by destruct related.
Qed.

Lemma keep_plain_columns_fixed (columns : list pyval) :
  Forall (λ c, Py.contains c "relationship" = Ok false) columns →
  keep_plain_columns columns = Ok columns.
Proof.
  induction 1 as [|c columns Hc _ IH]; [reflexivity|].
  cbn [keep_plain_columns]. by rewrite Hc, IH.
Qed.

Lemma kept_columns_plain (columns : list pyval) :
  Forall (λ c, Py.contains c "relationship" = Ok false)
    (List.filter (λ c, match Py.contains c "relationship" with
                       | Ok related => negb related
                       | Raise _ => false
                       end) columns).
Proof.
  apply Forall_forall. intros c Hc.
  apply list_elem_of_In, filter_In in Hc as [_ Hc].
  destruct (Py.contains c "relationship") as [[|]|]; done.
Qed.

(** X5: [remove_relation_columns] keeps exactly the columns that do not
    contain "relationship", in their order; no column of its result contains
    "relationship". *)
Theorem remove_relation_columns_spec (columns kept : pyval) :
  remove_relation_columns columns = Ok kept →
  ∃ before after,
    Py.iter columns = Ok before
    ∧ kept = PList after
    ∧ after = List.filter
                (λ c, match Py.contains c "relationship" with
                      | Ok related => negb related
                      | Raise _ => false
                      end) before
    ∧ Forall (λ c, Py.contains c "relationship" = Ok false) after.
Proof.
  intros Hkept. unfold remove_relation_columns in Hkept.
  apply bind_ok in Hkept as (before & Hiter & Hkept).
  apply bind_ok in Hkept as (after & Hafter & Hkept).
  injection Hkept as <-. exists before, after.
  destruct (keep_plain_columns_spec before after Hafter) as [_ Hfilter].
  repeat split; try done.
  rewrite Hfilter. apply kept_columns_plain.
Qed.

(** The shape of a picked model. *)
Lemma extract_shape (model picked : pyval) :
  extract model = Ok picked →
  ∃ name columns properties,
    Py.getitem_str model "name" = Ok name
    ∧ picked = PDict [("name", name); ("columns", PList columns);
                      ("properties", properties)]
    ∧ Forall (λ c, Py.contains c "relationship" = Ok false) columns.
Proof.
  intros Hpicked. unfold extract in Hpicked.
  apply bind_ok in Hpicked as (name & Hname & Hpicked).
  apply bind_ok in Hpicked as (columns & Hcolumns & Hpicked).
  apply bind_ok in Hpicked as (kept & Hkept & Hpicked).
  apply bind_ok in Hpicked as (properties & Hproperties & Hpicked).
  injection Hpicked as <-.
  unfold remove_relation_columns in Hkept.
  apply bind_ok in Hkept as (before & _ & Hkept).
  apply bind_ok in Hkept as (after & Hafter & Hkept).
  injection Hkept as <-.
  destruct (keep_plain_columns_spec before after Hafter) as [_ ->].
  eexists name, _, properties. split; [exact Hname|]. split; [reflexivity|].
  apply kept_columns_plain.
Qed.

Lemma pick_spec (selected_models : list string) (models out : list pyval) :
  pick models selected_models = Ok out →
  Forall (λ picked, ∃ name columns properties,
            picked = PDict [("name", PStr name); ("columns", PList columns);
                            ("properties", properties)]
            ∧ name ∈ selected_models
            ∧ Forall (λ c, Py.contains c "relationship" = Ok false) columns) out
  ∧ map (λ picked, Py.getitem_str picked "name") out
    = List.filter (λ name, match name with
                           | Ok name => selected name selected_models
                           | Raise _ => false
                           end)
        (map (λ model, Py.getitem_str model "name") models).
Proof.
  revert out. induction models as [|model models IH]; intros out Hout.
  - injection Hout as <-. by split.
  - cbn [pick] in Hout. apply bind_ok in Hout as (name & Hname & Hout).
    cbn [map List.filter]. rewrite Hname.
    destruct (selected name selected_models) eqn:Hselected.
    + apply bind_ok in Hout as (picked & Hpicked & Hout).
      apply bind_ok in Hout as (others & Hothers & Hout).
      injection Hout as <-. destruct (IH others Hothers) as [Hshape Hnames].
      destruct (extract_shape model picked Hpicked)
        as (name' & columns & properties & Hname' & -> & Hplain).
      assert (name' = name) as -> by congruence.
      destruct name as [| | | |s| |]; try discriminate.
      apply bool_decide_eq_true_1 in Hselected.
      split.
      * constructor; [by exists s, columns, properties|exact Hshape].
      * cbn [map]. by rewrite <- Hnames.
    + by apply IH.
Qed.

(** X6: every model that [picked_models] returns is a dictionary with
    exactly the keys "name", "columns" and "properties"; its name is one of
    the selected names and none of its columns contains "relationship". *)
Theorem picked_models_shape (mdl : pyval) (selected_models : list string)
    (out : list pyval) :
  picked_models mdl selected_models = Ok out →
  Forall (λ picked, ∃ name columns properties,
            picked = PDict [("name", PStr name); ("columns", PList columns);
                            ("properties", properties)]
            ∧ name ∈ selected_models
            ∧ Forall (λ c, Py.contains c "relationship" = Ok false) columns) out.
Proof.
  intros Hout. unfold picked_models in Hout.
  apply bind_ok in Hout as (v & _ & Hout).
  apply bind_ok in Hout as (models & _ & Hout).
  by destruct (pick_spec selected_models models out Hout).
Qed.

(** X7: [picked_models] returns the selected models in the order of the data
    model: the names of its result are the names of the models of [mdl],
    filtered by membership in the selection.  In particular it returns at
    most as many models as [mdl] has. *)
Theorem picked_models_order (mdl : pyval) (selected_models : list string)
    (out : list pyval) :
  picked_models mdl selected_models = Ok out →
  ∃ models,
    (Py.getitem_str mdl "models" ≫= Py.iter) = Ok models
    ∧ map (λ picked, Py.getitem_str picked "name") out
      = List.filter (λ name, match name with
                             | Ok name => selected name selected_models
                             | Raise _ => false
                             end)
          (map (λ model, Py.getitem_str model "name") models)
    ∧ length out ≤ length models.
Proof.
  intros Hout. unfold picked_models in Hout.
  apply bind_ok in Hout as (v & Hv & Hout).
  apply bind_ok in Hout as (models & Hmodels & Hout).
  exists models. rewrite Hv. split; [exact Hmodels|].
  destruct (pick_spec selected_models models out Hout) as [_ Hnames].
  split; [exact Hnames|].
  rewrite <- (length_map (λ picked, Py.getitem_str picked "name") out), Hnames.
  etrans; [apply List.filter_length_le|]. by rewrite length_map.
Qed.

Lemma pick_fixed (selected_models : list string) (out : list pyval) :
  Forall (λ picked, ∃ name columns properties,
            picked = PDict [("name", PStr name); ("columns", PList columns);
                            ("properties", properties)]
            ∧ name ∈ selected_models
            ∧ Forall (λ c, Py.contains c "relationship" = Ok false) columns) out →
  pick out selected_models = Ok out.
Proof.
  induction 1 as [|picked out Hpicked _ IH]; [reflexivity|].
  destruct Hpicked as (name & columns & properties & -> & Hname & Hplain).
  cbn [pick]. change (Py.getitem_str (PDict _) "name") with (Ok (PStr name)).
  rewrite bind_result_ok. cbn [selected].
  rewrite (bool_decide_eq_true_2 _ Hname).
  assert (Hextract :
    extract (PDict [("name", PStr name); ("columns", PList columns);
                    ("properties", properties)])
    = Ok (PDict [("name", PStr name); ("columns", PList columns);
                 ("properties", properties)])).
  { unfold extract.
    change (Py.getitem_str (PDict _) "name") with (Ok (PStr name)).
    rewrite bind_result_ok.
    change (Py.getitem_str _ "columns") with (Ok (PList columns)).
    rewrite bind_result_ok. unfold remove_relation_columns.
    cbn [Py.iter]. rewrite bind_result_ok.
    rewrite (keep_plain_columns_fixed columns Hplain). reflexivity. }
  by rewrite Hextract, bind_result_ok, IH.
Qed.

(** X8: picking is idempotent: applied to a data model made of its own
    result, with the same selection, [picked_models] returns that result
    unchanged. *)
Theorem picked_models_idempotent (mdl : pyval) (selected_models : list string)
    (out : list pyval) :
  picked_models mdl selected_models = Ok out →
  picked_models (PDict [("models", PList out)]) selected_models = Ok out.
Proof.
  intros Hout.
  assert (Hshape : Forall (λ picked, ∃ name columns properties,
            picked = PDict [("name", PStr name); ("columns", PList columns);
                            ("properties", properties)]
            ∧ name ∈ selected_models
            ∧ Forall (λ c, Py.contains c "relationship" = Ok false) columns) out).
  { unfold picked_models in Hout.
    apply bind_ok in Hout as (v & _ & Hout).
    apply bind_ok in Hout as (models & _ & Hout).
    by destruct (pick_spec selected_models models out Hout). }
  unfold picked_models.
  change (Py.getitem_str (PDict _) "models") with (Ok (PList out)).
  rewrite bind_result_ok. cbn [Py.iter]. rewrite bind_result_ok.
  by apply pick_fixed.
Qed.

(** X9: a model that is not selected is read for its name only: whatever its
    columns and properties are, or if it has none, the result is that of the
    data model without it. *)
Theorem picked_models_skips_unselected (selected_models : list string)
    (before after : list pyval) (model : pyval) (name : pyval) :
  Py.getitem_str model "name" = Ok name →
  selected name selected_models = false →
  picked_models (PDict [("models", PList (before ++ model :: after))])
    selected_models
  = picked_models (PDict [("models", PList (before ++ after))]) selected_models.
Proof.
  intros Hname Hskip. unfold picked_models.
  change (Py.getitem_str (PDict [("models", ?v)]) "models") with (Ok v).
  rewrite !bind_result_ok. cbn [Py.iter]. rewrite !bind_result_ok.
  induction before as [|m before IH].
  - cbn [app pick]. by rewrite Hname, bind_result_ok, Hskip.
  - cbn [app pick]. destruct (Py.getitem_str m "name") as [n|e]; [|reflexivity].
    rewrite !bind_result_ok.
    destruct (selected n selected_models); [|exact IH].
    destruct (extract m) as [picked|e]; [|reflexivity].
    rewrite !bind_result_ok. by rewrite IH.
Qed.

Lemma picked_models_shape_witness :
  Forall (λ picked, ∃ name columns properties,
            picked = PDict [("name", PStr name); ("columns", PList columns);
                            ("properties", properties)]
            ∧ name ∈ ["orders"]
            ∧ Forall (λ c, Py.contains c "relationship" = Ok false) columns)
    picked_orders.
Proof.
  apply (picked_models_shape sample_mdl ["orders"]). vm_compute. reflexivity.
Defined.

Lemma remove_relation_columns_spec_witness :
  ∃ before after,
    Py.iter (PList [ PDict [("name", PStr "id")];
                     PDict [("name", PStr "customer");
                            ("relationship", PStr "OrdersCustomer")] ])
    = Ok before
    ∧ PList [ PDict [("name", PStr "id")] ] = PList after
    ∧ after = List.filter
                (λ c, match Py.contains c "relationship" with
                      | Ok related => negb related
                      | Raise _ => false
                      end) before
    ∧ Forall (λ c, Py.contains c "relationship" = Ok false) after.
Proof.
  apply (remove_relation_columns_spec
           (PList [ PDict [("name", PStr "id")];
                    PDict [("name", PStr "customer");
                           ("relationship", PStr "OrdersCustomer")] ])
           (PList [ PDict [("name", PStr "id")] ])).
  vm_compute. reflexivity.
Defined.

Lemma picked_models_order_witness :
  ∃ models,
    (Py.getitem_str sample_mdl "models" ≫= Py.iter) = Ok models
    ∧ map (λ picked, Py.getitem_str picked "name") picked_orders
      = List.filter (λ name, match name with
                             | Ok name => selected name ["orders"]
                             | Raise _ => false
                             end)
          (map (λ model, Py.getitem_str model "name") models)
    ∧ length picked_orders ≤ length models.
Proof.
  apply (picked_models_order sample_mdl ["orders"] picked_orders).
  vm_compute. reflexivity.
Defined.

Lemma picked_models_idempotent_witness :
  picked_models (PDict [("models", PList picked_orders)]) ["orders"]
  = Ok picked_orders.
Proof.
  apply (picked_models_idempotent sample_mdl ["orders"] picked_orders).
  vm_compute. reflexivity.
Defined.

Lemma picked_models_skips_unselected_witness :
  picked_models
    (PDict [("models",
             PList (picked_orders ++ PDict [("name", PStr "customers")] :: []))])
    ["orders"]
  = picked_models (PDict [("models", PList (picked_orders ++ []))]) ["orders"].
Proof.
  apply (picked_models_skips_unselected ["orders"] picked_orders []
           (PDict [("name", PStr "customers")]) (PStr "customers"));
    vm_compute; reflexivity.
Defined.

End PickProperties.

(** ** The description pipeline: the text handed to the decoder *)
Module CleaningProperties.
Import SemanticsDescription.

Lemma append_cons (c : ascii) (s t : string) :
  String c s +:+ t = String c (s +:+ t).
Proof. reflexivity. Qed.

Lemma append_nil_r (s : string) : s +:+ "" = s.
Proof. induction s as [|c s IH]; [reflexivity|]. by rewrite append_cons, IH. Qed.

Lemma append_assoc (s t u : string) : (s +:+ t) +:+ u = s +:+ (t +:+ u).
Proof.
  induction s as [|c s IH]; [reflexivity|]. by rewrite !append_cons, IH.
Qed.

Lemma spaceless_app (s t : string) :
  Py.spaceless (s +:+ t) = Py.spaceless s && Py.spaceless t.
Proof.
  induction s as [|c s IH]; [reflexivity|].
  rewrite append_cons. cbn [Py.spaceless]. rewrite IH. by destruct (Py.isspace c).
Qed.

(** Reading a run of characters without white space extends the word being
    read. *)
Lemma split_from_word (word w rest : string) :
  Py.spaceless w = true →
  Py.split_from word (w +:+ rest) = Py.split_from (word +:+ w) rest.
Proof.
  revert word. induction w as [|c w IH]; intros word Hw.
  - by rewrite append_nil_r.
  - cbn [Py.spaceless] in Hw. apply andb_true_iff in Hw as [Hc Hw].
    rewrite append_cons. cbn [Py.split_from].
    destruct (Py.isspace c); [discriminate|].
    rewrite (IH _ Hw), append_assoc. reflexivity.
Qed.

Lemma split_from_words (text : string) :
  ∀ word, Py.spaceless word = true →
    Forall (λ w, Py.is_word w = true) (Py.split_from word text).
Proof.
  induction text as [|c text IH]; intros word Hword; cbn [Py.split_from].
  - destruct (String.eqb word "") eqn:Hempty; [constructor|].
    repeat constructor. unfold Py.is_word. by rewrite Hempty, Hword.
  - destruct (Py.isspace c) eqn:Hc.
    + destruct (String.eqb word "") eqn:Hempty; [by apply IH|].
      constructor; [|by apply IH]. unfold Py.is_word. by rewrite Hempty, Hword.
    + apply IH. rewrite spaceless_app, Hword. cbn [Py.spaceless].
      by rewrite Hc.
Qed.

(** The words of a text, joined by single spaces, split into the same
    words. *)
Lemma split_join (words : list string) :
  Forall (λ w, Py.is_word w = true) words →
  Py.split (Py.join " " words) = words.
Proof.
  unfold Py.split.
  induction 1 as [|w words Hw Hwords IH]; [reflexivity|].
  unfold Py.is_word in Hw. apply andb_true_iff in Hw as [Hnonempty Hw].
  apply negb_true_iff in Hnonempty.
  destruct words as [|w' words].
  - cbn [Py.join]. rewrite <- (append_nil_r w) at 1.
    rewrite (split_from_word "" w "" Hw). cbn [Py.split_from].
    change ("" +:+ w) with w. by rewrite Hnonempty.
  - change (Py.join " " (w :: w' :: words))
      with (w +:+ " " +:+ Py.join " " (w' :: words)).
    rewrite (split_from_word "" w _ Hw).
    change ("" +:+ w) with w.
    change (" " +:+ Py.join " " (w' :: words))
      with (String " " (Py.join " " (w' :: words))).
    cbn [Py.split_from]. change (Py.isspace " ") with true. cbv iota.
    by rewrite Hnonempty, IH.
Qed.

Lemma replace_newline_split (text : string) :
  ∀ word, Py.split_from word (Py.replace "010" " " text)
          = Py.split_from word text.
Proof.
  induction text as [|c text IH]; intros word; [reflexivity|].
  cbn [Py.replace Py.split_from].
  destruct (Ascii.eqb_spec c "010") as [->|_].
  - change (Py.isspace " ") with true. change (Py.isspace "010") with true.
    cbv iota. by rewrite !IH.
  - destruct (Py.isspace c); [destruct (String.eqb word "")|]; by rewrite IH.
Qed.

Lemma rev_app_app (s t acc : string) :
  String.rev_app (s +:+ t) acc = String.rev_app t (String.rev_app s acc).
Proof.
  revert acc. induction s as [|c s IH]; intros acc; [reflexivity|].
  rewrite append_cons. cbn [String.rev_app]. apply IH.
Qed.

Lemma rev_app_rev_app (s a b : string) :
  String.rev_app (String.rev_app s a) b = String.rev_app a (s +:+ b).
Proof.
  revert a b. induction s as [|c s IH]; intros a b; [reflexivity|].
  cbn [String.rev_app]. rewrite IH. reflexivity.
Qed.

(** A text that ends with a character that is no white space is its own
    [rstrip]. *)
Lemma strip_fixed (last : ascii) (middle : string) :
  Py.isspace last = false →
  Py.rstrip (middle +:+ String last "") = middle +:+ String last "".
Proof.
  intros Hlast. unfold Py.rstrip, String.rev.
  rewrite rev_app_app. cbn [String.rev_app Py.lstrip]. rewrite Hlast.
  cbn [String.rev_app].
  rewrite (rev_app_rev_app middle "" (String last "")). reflexivity.
Qed.

Lemma word_last (w : string) :
  Py.is_word w = true →
  ∃ front last, w = front +:+ String last "" ∧ Py.isspace last = false.
Proof.
  unfold Py.is_word. intros [Hnonempty Hw]%andb_true_iff.
  apply negb_true_iff, String.eqb_neq in Hnonempty.
  induction w as [|c w IH]; [done|].
  cbn [Py.spaceless] in Hw. apply andb_true_iff in Hw as [Hc Hw].
  apply negb_true_iff in Hc.
  destruct w as [|c' w].
  - by exists "", c.
  - destruct (IH ltac:(done) Hw) as (front & last & -> & Hlast).
    by exists (String c front), last.
Qed.

Lemma join_last (words : list string) :
  words ≠ [] →
  Forall (λ w, Py.is_word w = true) words →
  ∃ front last,
    Py.join " " words = front +:+ String last "" ∧ Py.isspace last = false.
Proof.
  intros Hnonempty Hwords.
  induction Hwords as [|w words Hw Hwords IH]; [done|].
  destruct words as [|w' words].
  - cbn [Py.join]. by apply word_last.
  - destruct (IH ltac:(done)) as (front & last & Hjoin & Hlast).
    exists (w +:+ " " +:+ front), last. split; [|exact Hlast].
    change (Py.join " " (w :: w' :: words))
      with (w +:+ " " +:+ Py.join " " (w' :: words)).
    by rewrite Hjoin, !append_assoc.
Qed.

Lemma strip_join (words : list string) :
  Forall (λ w, Py.is_word w = true) words →
  Py.strip (Py.join " " words) = Py.join " " words.
Proof.
  intros Hwords. destruct words as [|w words]; [reflexivity|].
  assert (Hleft : Py.lstrip (Py.join " " (w :: words)) = Py.join " " (w :: words)).
  { apply Forall_cons in Hwords as [Hw _].
    unfold Py.is_word in Hw. apply andb_true_iff in Hw as [Hnonempty Hw].
    destruct w as [|c w]; [done|].
    cbn [Py.spaceless] in Hw. apply andb_true_iff in Hw as [Hc _].
    apply negb_true_iff in Hc.
    destruct words as [|w' words].
    - cbn [Py.join Py.lstrip]. by rewrite Hc.
    - change (Py.join " " (String c w :: w' :: words))
        with (String c (w +:+ " " +:+ Py.join " " (w' :: words))).
      cbn [Py.lstrip]. by rewrite Hc. }
  unfold Py.strip. rewrite Hleft.
  destruct (join_last (w :: words) ltac:(done) Hwords)
    as (front & last & -> & Hlast).
  by apply strip_fixed.
Qed.

(** The cleaned text in terms of the words of the reply. *)
Lemma cleaned_words (text : string) :
  cleaned text = Py.join " " (Py.split text)
  ∧ Forall (λ w, Py.is_word w = true) (Py.split text).
Proof.
  assert (Hwords : Forall (λ w, Py.is_word w = true) (Py.split text))
    by (by apply split_from_words).
  split; [|exact Hwords].
  unfold cleaned, Py.split. rewrite replace_newline_split.
  by apply strip_join.
Qed.

(** X10: the text that [wrapper] hands to the decoder is the reply's words
    (its maximal runs of characters that are no white space) joined by single
    spaces: replacing the newlines beforehand and stripping afterwards change
    nothing, and every line break, tab or run of blanks of the reply, also
    inside a JSON string, has become one space. *)
Theorem cleaned_is_words_joined (text : string) :
  cleaned text = Py.join " " (Py.split text)
  ∧ Forall (λ w, Py.is_word w = true) (Py.split text)
  ∧ Py.split (cleaned text) = Py.split text.
Proof.
  destruct (cleaned_words text) as [Hclean Hwords].
  split; [exact Hclean|]. split; [exact Hwords|].
  by rewrite Hclean, (split_join _ Hwords).
Qed.

(** X11: cleaning is idempotent, so a reply that was cleaned already is
    decoded as it stands. *)
Theorem cleaned_idempotent (text : string) :
  cleaned (cleaned text) = cleaned text.
Proof.
  destruct (cleaned_words text) as [Hclean Hwords].
  destruct (cleaned_words (cleaned text)) as [-> _].
  by rewrite Hclean, (split_join _ Hwords).
Qed.

End CleaningProperties.

(** ** The description pipeline: the mapping that [normalize] builds *)
Module MappingProperties.
Import SemanticsDescription.
Section Mapping.

Variable loads : string → option pyval.
Variable dumps : gmap string pyval → bool.

Lemma key_eqb_str (a b : string) :
  Py.key_eqb (PStr a) (PStr b) = String.eqb a b.
Proof. reflexivity. Qed.

Lemma setitem_fresh (d : Py.dict) (key value : pyval) :
  Forall (λ item, Py.key_eqb (fst item) key = false) d →
  Py.setitem d key value = d ++ [(key, value)].
Proof.
  induction 1 as [|[k v] d Hk _ IH]; [reflexivity|].
  cbn [Py.setitem app]. simpl in Hk. by rewrite Hk, IH.
Qed.

Lemma setitem_str_keys (d : Py.dict) (s : string) (value : pyval) :
  Forall (λ item, ∃ k, fst item = PStr k) d →
  Forall (λ item, ∃ k, fst item = PStr k) (Py.setitem d (PStr s) value).
Proof.
  induction 1 as [|[k v] d Hk Hd IH]; cbn [Py.setitem].
  - repeat constructor. by exists s.
  - destruct (Py.key_eqb k (PStr s)); constructor;
      [exact Hk|exact Hd|exact Hk|exact IH].
Qed.

Lemma getitem_setitem (d : Py.dict) (s t : string) (value : pyval) :
  Forall (λ item, ∃ k, fst item = PStr k) d →
  Py.getitem (Py.setitem d (PStr s) value) (PStr t)
  = if String.eqb s t then Some value else Py.getitem d (PStr t).
Proof.
  induction 1 as [|[k v] d [k' Hk] _ IH]; cbn [Py.setitem Py.getitem].
  - by rewrite key_eqb_str.
  - simpl in Hk. subst k. rewrite !key_eqb_str.
    destruct (String.eqb_spec k' s) as [->|Hks]; cbn [Py.getitem];
      rewrite !key_eqb_str.
    + by destruct (String.eqb s t).
    + rewrite IH. destruct (String.eqb_spec s t) as [->|_]; [|done].
      by apply String.eqb_neq in Hks as ->.
Qed.

Lemma length_setitem (d : Py.dict) (key value : pyval) :
  length (Py.setitem d key value) ≤ S (length d).
Proof.
  induction d as [|[k v] d IH]; cbn [Py.setitem length]; [lia|].
  destruct (Py.key_eqb k key); cbn [length]; lia.
Qed.

(** Models with pairwise distinct string names are entered one by one. *)
Lemma by_name_distinct (models : list pyval) (names : list string) :
  Forall2 named models names →
  ∀ (acc : Py.dict) (keys : list string),
    map fst acc = map PStr keys →
    NoDup (keys ++ names) →
    by_name acc models = Ok (acc ++ zip (map PStr names) models).
Proof.
  induction 1 as [|model s models names Hmodel _ IH]; intros acc keys Hkeys Hnodup.
  - by rewrite app_nil_r.
  - cbn [by_name]. unfold named in Hmodel. rewrite Hmodel.
    change (Ok (PStr s) ≫= ?k) with (k (PStr s)). cbn [Py.hashable].
    rewrite setitem_fresh.
    + rewrite (IH _ (keys ++ [s])).
      * by rewrite <- app_assoc.
      * by rewrite !map_app, Hkeys.
      * by rewrite <- app_assoc.
    + apply Forall_forall. intros [k v] Hitem. simpl.
      assert (Hk : k ∈ map PStr keys)
        by (rewrite <- Hkeys; apply list_elem_of_fmap; by exists (k, v)).
      apply list_elem_of_fmap in Hk as (k' & -> & Hk').
      rewrite key_eqb_str. apply String.eqb_neq. intros ->.
      apply NoDup_app in Hnodup as (_ & Hdisjoint & _).
      apply (Hdisjoint s Hk'). by left.
Qed.

(** Models with string names: a later model replaces an earlier one of the
    same name. *)
Lemma by_name_last (models : list pyval) :
  Forall (λ model, ∃ s, named model s) models →
  ∀ acc : Py.dict,
    Forall (λ item, ∃ k, fst item = PStr k) acc →
    ∃ r,
      by_name acc models = Ok r
      ∧ length r ≤ length acc + length models
      ∧ ∀ s, Py.getitem r (PStr s)
             = from_option Some (Py.getitem acc (PStr s)) (last_named s models).
Proof.
  induction 1 as [|model models [s Hmodel] _ IH]; intros acc Hacc.
  - exists acc. split; [reflexivity|]. split; [lia|done].
  - cbn [by_name]. unfold named in Hmodel. rewrite Hmodel.
    change (Ok (PStr s) ≫= ?k) with (k (PStr s)). cbn [Py.hashable].
    destruct (IH (Py.setitem acc (PStr s) model)) as (r & -> & Hlen & Hget);
      [by apply setitem_str_keys|].
    exists r. split; [reflexivity|]. split.
    { pose proof (length_setitem acc (PStr s) model). cbn [length]. lia. }
    intros t. rewrite Hget, getitem_setitem by done.
    unfold last_named. cbn [List.filter]. rewrite Hmodel.
    destruct (String.eqb s t); [|done].
    destruct (List.filter _ models) as [|m ms] eqn:Hfilter; [done|].
    rewrite last_cons_cons.
    destruct (last (m :: ms)) eqn:Hlast; [done|].
    by apply last_None in Hlast.
Qed.

Lemma normalize_eq (generate : gmap string pyval) (text : string)
    (others models : list pyval) (decoded : pyval) :
  dumps generate = true →
  generate !! "replies" = Some (PList (PStr text :: others)) →
  loads (cleaned text) = Some decoded →
  Py.getitem_str decoded "models" = Ok (PList models) →
  normalize loads dumps generate = by_name [] models.
Proof.
  intros Hencoded Hreplies Hdecoded Hmodels. unfold normalize.
  rewrite Hencoded, Hreplies. simpl. unfold wrapper. rewrite Hdecoded.
  by rewrite Hmodels.
Qed.

(** X12: when [orjson.dumps] accepts the output of the generator and the
    first reply decodes to an object whose "models" are models with pairwise
    distinct string names, [normalize] returns one entry per model, in the
    order of the models, each keyed by the model's name. *)
Theorem normalize_distinct_names (generate : gmap string pyval) (text : string)
    (others models : list pyval) (decoded : pyval) (names : list string) :
  dumps generate = true →
  generate !! "replies" = Some (PList (PStr text :: others)) →
  loads (cleaned text) = Some decoded →
  Py.getitem_str decoded "models" = Ok (PList models) →
  Forall2 named models names →
  NoDup names →
  normalize loads dumps generate = Ok (zip (map PStr names) models).
Proof.
  intros Hencoded Hreplies Hdecoded Hmodels Hnamed Hnodup.
  rewrite (normalize_eq _ _ _ _ _ Hencoded Hreplies Hdecoded Hmodels).
  by rewrite (by_name_distinct models names Hnamed [] []).
Qed.

(** X13: when [orjson.dumps] accepts the output of the generator and the
    models of the first reply all have string names,
    [normalize] succeeds, and looking a name up in its result gives the last
    model of the reply with that name: a model replaces every earlier model
    of the same name, and a name that no model has is not a key.  The result
    has at most as many entries as the reply has models. *)
Theorem normalize_last_wins (generate : gmap string pyval) (text : string)
    (others models : list pyval) (decoded : pyval) :
  dumps generate = true →
  generate !! "replies" = Some (PList (PStr text :: others)) →
  loads (cleaned text) = Some decoded →
  Py.getitem_str decoded "models" = Ok (PList models) →
  Forall (λ model, ∃ s, named model s) models →
  ∃ r,
    normalize loads dumps generate = Ok r
    ∧ length r ≤ length models
    ∧ ∀ s, Py.getitem r (PStr s) = last_named s models.
Proof.
  intros Hencoded Hreplies Hdecoded Hmodels Hnamed.
  rewrite (normalize_eq _ _ _ _ _ Hencoded Hreplies Hdecoded Hmodels).
  destruct (by_name_last models Hnamed []) as (r & Hr & Hlen & Hget);
    [constructor|].
  exists r. split; [exact Hr|]. split; [exact Hlen|].
  intros s. rewrite Hget. by destruct (last_named s models).
Qed.

(** X14: an output of the generator that [orjson.dumps] refuses makes
    [normalize] raise TypeError before it reads anything.  Otherwise, without
    a usable first reply, it raises before it decodes anything: TypeError
    when the output has no "replies", IndexError when the list of replies is
    empty, AttributeError when the first reply is a list, a dictionary or a
    number rather than a text. *)
Theorem normalize_without_reply (generate : gmap string pyval) :
  (dumps generate = false → normalize loads dumps generate = Raise TypeError)
  ∧ (dumps generate = true →
     (generate !! "replies" = None
      → normalize loads dumps generate = Raise TypeError)
     ∧ (generate !! "replies" = Some (PList [])
        → normalize loads dumps generate = Raise IndexError)
     ∧ (∀ first others,
          generate !! "replies" = Some (PList (first :: others)) →
          (∀ text, first ≠ PStr text) →
          normalize loads dumps generate = Raise AttributeError)).
Proof.
  unfold normalize. split; [by intros ->|]. intros ->. split; [|split].
  - by intros ->.
  - by intros ->.
  - intros first others -> Hfirst. simpl.
    destruct first; try reflexivity. by destruct (Hfirst s).
Qed.

(** X15: when [orjson.dumps] accepts the output of the generator, a reply
    that decodes, but not to an object with a key "models", makes
    [normalize] raise: KeyError for an object without that key, TypeError
    for an array, a text, a number or null. *)
Theorem normalize_without_models (generate : gmap string pyval) (text : string)
    (others : list pyval) (decoded : pyval) :
  dumps generate = true →
  generate !! "replies" = Some (PList (PStr text :: others)) →
  loads (cleaned text) = Some decoded →
  match decoded with
  | PDict d =>
      Py.lookup_str d "models" = None →
      normalize loads dumps generate = Raise (KeyError (PStr "models"))
  | _ => normalize loads dumps generate = Raise TypeError
  end.
Proof.
  intros Hencoded Hreplies Hdecoded. unfold normalize.
  rewrite Hencoded, Hreplies. simpl. unfold wrapper. rewrite Hdecoded.
  destruct decoded; try reflexivity. intros Hmissing. simpl. by rewrite Hmissing.
Qed.

End Mapping.

Lemma normalize_distinct_names_witness :
  normalize Json.loads Json.dumps (generate_of ranked_reply)
  = Ok (zip (map PStr ["orders"; "customers"])
          [ranked "orders" 1; ranked "customers" 2]).
Proof.
  apply (normalize_distinct_names Json.loads Json.dumps
           (generate_of ranked_reply) ranked_reply []
           [ranked "orders" 1; ranked "customers" 2]
           (PDict [("models", PList [ranked "orders" 1; ranked "customers" 2])])).
  - vm_compute. reflexivity.
  - vm_compute. reflexivity.
  - vm_compute. reflexivity.
  - reflexivity.
  - repeat constructor.
  - apply NoDup_cons. split; [|apply NoDup_singleton].
    intros Hin. apply list_elem_of_singleton in Hin. discriminate Hin.
Defined.

Lemma normalize_last_wins_witness :
  ∃ r,
    normalize Json.loads Json.dumps (generate_of repeated_reply) = Ok r
    ∧ length r
      ≤ length [ranked "orders" 1; ranked "customers" 2; ranked "orders" 3]
    ∧ ∀ s, Py.getitem r (PStr s)
           = last_named s
               [ranked "orders" 1; ranked "customers" 2; ranked "orders" 3].
Proof.
  apply (normalize_last_wins Json.loads Json.dumps
           (generate_of repeated_reply) repeated_reply []
           [ranked "orders" 1; ranked "customers" 2; ranked "orders" 3]
           (PDict [("models", PList [ranked "orders" 1; ranked "customers" 2;
                                     ranked "orders" 3])])).
  - vm_compute. reflexivity.
  - vm_compute. reflexivity.
  - vm_compute. reflexivity.
  - reflexivity.
  - repeat constructor; eexists; reflexivity.
Defined.

Lemma normalize_without_models_witness :
  normalize Json.loads Json.dumps (generate_of "[1, 2]") = Raise TypeError.
Proof.
  apply (normalize_without_models Json.loads Json.dumps
           (generate_of "[1, 2]") "[1, 2]" [] (PList [PInt 1; PInt 2]));
    vm_compute; reflexivity.
Defined.

End MappingProperties.

(** ** The credential refresh of [__getattr__] *)
Module CredentialProperties.
Import OpenAI AdapterProperties.
Section Credential.

Variable env : environment.

(** What the client answers for one of its attributes. *)
Lemma getattr_eq (name : string) (w : world) :
  __getattr__ env name w =
    let hand_out (w' : world) :=
      (if client_has env name then Ok (ClientAttribute name)
       else Raise AttributeError, w') in
    match _vertexai_creds w with
    | None => hand_out w
    | Some creds =>
        if valid creds then hand_out w
        else
          match refresh_reply env (refreshes w) with
          | Raise e => (Raise e, record_refresh (Some creds) w)
          | Ok creds' =>
              if valid creds'
              then hand_out (set_client_api_key (token creds')
                               (record_refresh (Some creds') w))
              else (Raise (RuntimeError "Unable to refresh auth"),
                    record_refresh (Some creds') w)
          end
    end.
Proof.
  unfold __getattr__. rewrite bind_apply. unfold get at 1. cbv iota beta zeta.
  destruct (_vertexai_creds w) as [creds|] eqn:Hcreds.
  - destruct (valid creds) eqn:Hvalid; cbn [negb].
    + rewrite bind_apply. unfold mret at 1, M_ret at 1.
      by destruct (client_has env name).
    + rewrite bind_apply, bind_apply. unfold refresh.
      rewrite bind_apply. unfold get at 1. cbv iota beta.
      destruct (refresh_reply env (refreshes w)) as [creds'|e].
      * unfold modify at 1. cbv iota beta. rewrite bind_apply.
        unfold get at 1. cbv iota beta. cbn [_vertexai_creds record_refresh from_option].
        destruct (valid creds'); cbn [negb]; [|reflexivity].
        unfold modify at 1. by destruct (client_has env name).
      * rewrite bind_apply. unfold modify at 1. cbv iota beta.
        by rewrite Hcreds.
  - rewrite bind_apply. unfold mret at 1, M_ret at 1.
    by destruct (client_has env name).
Qed.

(** X16: while there is no Vertex AI credential, or the credential is valid,
    [__getattr__] asks for no refresh and changes nothing: it hands out the
    client's attribute, or raises AttributeError when the client has none of
    that name. *)
Theorem getattr_without_refresh (name : string) (w : world) :
  from_option valid true (_vertexai_creds w) = true →
  __getattr__ env name w
  = (if client_has env name then Ok (ClientAttribute name)
     else Raise AttributeError, w).
Proof.
  intros Husable. rewrite getattr_eq. cbv zeta.
  destruct (_vertexai_creds w) as [creds|]; [|reflexivity].
  simpl in Husable. by rewrite Husable.
Qed.

(** X17: with a credential that is not valid, [__getattr__] asks for exactly
    one refresh.  If the refresh raises, its error is raised; if it leaves
    the credential invalid, RuntimeError is raised; in both cases the
    client keeps its key.  Only a refresh that makes the credential valid
    gives the client the new token, before the attribute is handed out.  No
    request is sent. *)
Theorem getattr_refresh_outcomes (name : string) (w : world) (creds : Credentials) :
  _vertexai_creds w = Some creds →
  valid creds = false →
  let r := fst (__getattr__ env name w) in
  let w' := snd (__getattr__ env name w) in
  refreshes w' = S (refreshes w)
  ∧ requests w' = requests w
  ∧ match refresh_reply env (refreshes w) with
    | Raise e =>
        r = Raise e
        ∧ client_api_key w' = client_api_key w
        ∧ _vertexai_creds w' = Some creds
    | Ok creds' =>
        _vertexai_creds w' = Some creds'
        ∧ if valid creds'
          then client_api_key w' = token creds'
               ∧ r = (if client_has env name then Ok (ClientAttribute name)
                      else Raise AttributeError)
          else client_api_key w' = client_api_key w
               ∧ r = Raise (RuntimeError "Unable to refresh auth")
    end.
Proof.
  intros Hcreds Hinvalid. cbv zeta. rewrite getattr_eq. cbv zeta.
  rewrite Hcreds, Hinvalid.
  destruct (refresh_reply env (refreshes w)) as [creds'|e]; [|done].
  destruct (valid creds'); done.
Qed.

(** X18: once [__getattr__] has handed out an attribute, the credential is
    valid (or there is none), so a further call asks for no refresh and
    leaves the world as it is: the credential is refreshed at most once for
    as long as it stays valid. *)
Theorem getattr_refreshes_once (name name' : string) (w w1 : world)
    (a : client_attribute) :
  __getattr__ env name w = (Ok a, w1) →
  from_option valid true (_vertexai_creds w1) = true
  ∧ snd (__getattr__ env name' w1) = w1.
Proof.
  intros Hfirst.
  assert (Husable : from_option valid true (_vertexai_creds w1) = true).
  { rewrite getattr_eq in Hfirst. cbv zeta in Hfirst.
    destruct (_vertexai_creds w) as [creds|] eqn:Hcreds.
    - destruct (valid creds) eqn:Hvalid.
      + destruct (client_has env name); [|discriminate].
        injection Hfirst as _ <-. by rewrite Hcreds.
      + destruct (refresh_reply env (refreshes w)) as [creds'|e];
          [|discriminate].
        destruct (valid creds') eqn:Hvalid'; [|discriminate].
        destruct (client_has env name); [|discriminate].
        by injection Hfirst as _ <-.
    - destruct (client_has env name); [|discriminate].
      injection Hfirst as _ <-. by rewrite Hcreds. }
  split; [exact Husable|]. rewrite getattr_eq. cbv zeta.
  destruct (_vertexai_creds w1) as [creds|]; [|by destruct (client_has env name')].
  simpl in Husable. rewrite Husable. by destruct (client_has env name').
Qed.

(** C3 (as the code has it): a generator whose credential is not valid any
    more, as happens when the credential expires after the generator was
    built.  [run] reads [client] as an attribute of the instance, so
    [__getattr__] is not called: no refresh is asked for, the credential
    stays invalid, and the request goes out, in every attempt, with the key
    that the client already holds.  Had [__getattr__] been called in that
    world, it would have asked for a refresh, and raised when the refresh
    fails or leaves the credential invalid. *)
Theorem run_skips_credential_refresh (self : AsyncGenerator) (prompt : string)
    (overrides : option kwargs) (w : world) (creds : Credentials) :
  _vertexai_creds w = Some creds →
  valid creds = false →
  keyword_clash env (effective self overrides) = false →
  refreshes (snd (run env self prompt overrides w)) = refreshes w
  ∧ _vertexai_creds (snd (run env self prompt overrides w)) = Some creds
  ∧ (∃ k, issued (run env self prompt overrides) w
          = replicate (S k) (sent self prompt overrides (client_api_key w)))
  ∧ refreshes (snd (__getattr__ env "chat" w)) = S (refreshes w)
  ∧ (∀ creds', refresh_reply env (refreshes w) = Ok creds' →
               valid creds' = false →
               __getattr__ env "chat" w
               = (Raise (RuntimeError "Unable to refresh auth"),
                  record_refresh (Some creds') w))
  ∧ (∀ e, refresh_reply env (refreshes w) = Raise e →
          fst (__getattr__ env "chat" w) = Raise e).
Proof.
  intros Hcreds Hinvalid Hclash.
  destruct (run_world env self prompt overrides w)
    as [Hsession (k & _ & Hsome & Hsent)].
  unfold session in Hsession. injection Hsession as Hrefreshes Hkept _.
  rewrite Hclash in Hsome.
  split; [exact Hrefreshes|]. split; [by rewrite Hkept|]. split.
  { destruct k as [|k]; [lia|]. by exists k. }
  rewrite getattr_eq. cbv zeta. rewrite Hcreds, Hinvalid.
  split; [|split].
  - destruct (refresh_reply env (refreshes w)) as [creds'|e]; [|done].
    destruct (valid creds'); [|done]. by destruct (client_has env "chat").
  - intros creds' -> Hstill. by rewrite Hstill.
  - by intros e ->.
Qed.

End Credential.

Import Samples.

Lemma getattr_without_refresh_witness :
  __getattr__ answering "chat" start = (Ok (ClientAttribute "chat"), start).
Proof. apply (getattr_without_refresh answering "chat" start). reflexivity. Defined.

Lemma getattr_refresh_outcomes_witness :
  refreshes (snd (__getattr__ stale "chat" vertex_start)) = 1
  ∧ requests (snd (__getattr__ stale "chat" vertex_start)) = []
  ∧ _vertexai_creds (snd (__getattr__ stale "chat" vertex_start))
    = Some unrefreshed
  ∧ client_api_key (snd (__getattr__ stale "chat" vertex_start))
    = Some "sk-test"
  ∧ fst (__getattr__ stale "chat" vertex_start)
    = Raise (RuntimeError "Unable to refresh auth").
Proof.
  apply (getattr_refresh_outcomes stale "chat" vertex_start unrefreshed);
    reflexivity.
Defined.

Lemma run_skips_credential_refresh_witness :
  refreshes (snd (run stale vertex "hi" None lapsed)) = 1
  ∧ _vertexai_creds (snd (run stale vertex "hi" None lapsed))
    = Some {| valid := false; token := Some "ya29.fresh" |}
  ∧ (∃ k, issued (run stale vertex "hi" None) lapsed
          = replicate (S k) (sent vertex "hi" None (Some "ya29.fresh")))
  ∧ refreshes (snd (__getattr__ stale "chat" lapsed)) = 2
  ∧ (∀ creds', refresh_reply stale 1 = Ok creds' →
               valid creds' = false →
               __getattr__ stale "chat" lapsed
               = (Raise (RuntimeError "Unable to refresh auth"),
                  record_refresh (Some creds') lapsed))
  ∧ (∀ e, refresh_reply stale 1 = Raise e →
          fst (__getattr__ stale "chat" lapsed) = Raise e).
Proof.
  apply (run_skips_credential_refresh stale vertex "hi" None lapsed
           {| valid := false; token := Some "ya29.fresh" |}); reflexivity.
Defined.

Lemma getattr_refreshes_once_witness :
  from_option valid true
    (_vertexai_creds (snd (__getattr__ answering "chat" vertex_start))) = true
  ∧ snd (__getattr__ answering "models"
           (snd (__getattr__ answering "chat" vertex_start)))
    = snd (__getattr__ answering "chat" vertex_start).
Proof.
  apply (getattr_refreshes_once answering "chat" "models" vertex_start _
           (ClientAttribute "chat")).
  vm_compute. reflexivity.
Defined.

End CredentialProperties.

(** ** More on [run] *)
Module RunProperties.
Import OpenAI AdapterProperties.
Section Run.

Variable env : environment.

(** X19: a call of [run] sends at most three requests, and every attempt
    sends the same request: the one built from the prompt, the options in
    force and the key the client held when the call began. *)
Theorem run_attempts_bounded (self : AsyncGenerator) (prompt : string)
    (overrides : option kwargs) (w : world) :
  length (issued (run env self prompt overrides) w) ≤ 3
  ∧ Forall (λ r, r = sent self prompt overrides (client_api_key w))
      (issued (run env self prompt overrides) w)
  ∧ requests (snd (run env self prompt overrides w))
    = requests w ++ issued (run env self prompt overrides) w.
Proof.
  destruct (run_world env self prompt overrides w) as [_ (k & Hk & _ & Hsent)].
  rewrite Hsent. rewrite length_replicate. split; [exact Hk|].
  split; [by apply Forall_replicate|].
  destruct (retry_world env self prompt overrides max_time 2 0 w)
    as [_ (k' & _ & _ & Hrequests)].
  unfold issued in Hsent. unfold run, on_exception in *.
  change (max_tries - 1) with 2 in *.
  rewrite Hrequests in Hsent |- *. rewrite drop_app_length in Hsent.
  by rewrite Hsent.
Qed.

Lemma keyword_clash_true (kw : kwargs) (key : string) :
  is_Some (kw !! key) →
  key ∈ ["model"; "messages"; "stream"] ∨ accepts env key = false →
  keyword_clash env kw = true.
Proof.
  intros [v Hv] Hkey. unfold keyword_clash. apply existsb_exists.
  exists (key, v). split.
  - apply list_elem_of_In, elem_of_map_to_list, Hv.
  - cbn [fst]. destruct Hkey as [Hnamed| ->].
    + by rewrite (bool_decide_eq_true_2 _ Hnamed).
    + by rewrite orb_true_r.
Qed.

(** X20: when the options in force hold a keyword that [run] already passes
    by name ("model", "messages", "stream"), or one that
    [chat.completions.create] does not have, the call raises TypeError at
    once: nothing is sent, nothing is retried and the world is unchanged. *)
Theorem run_refused_keywords (self : AsyncGenerator) (prompt : string)
    (overrides : option kwargs) (w : world) (key : string) :
  is_Some (effective self overrides !! key) →
  key ∈ ["model"; "messages"; "stream"] ∨ accepts env key = false →
  run env self prompt overrides w = (Raise TypeError, w).
Proof.
  intros Hpresent Hkey. apply retry_propagates; [|reflexivity].
  by rewrite run_once_eq, (keyword_clash_true _ key Hpresent Hkey).
Qed.

(** X21: a rate-limit answer is not retried once the time allowed has run
    out: if 60 seconds or more had gone by when the failed attempt began,
    the call ends with the rate-limit error, after one request if that was
    the first attempt and after two if it was the second. *)
Theorem run_time_budget (self : AsyncGenerator) (prompt : string)
    (overrides : option kwargs) (w : world) :
  keyword_clash env (effective self overrides) = false →
  let r := sent self prompt overrides (client_api_key w) in
  let k := length (requests w) in
  backend env k r = Raise RateLimitError →
  ((max_time <= elapsed env 0)%Z →
   run env self prompt overrides w
   = (Raise RateLimitError, record_request r w))
  ∧ ((elapsed env 0 < max_time)%Z →
     (max_time <= elapsed env 1)%Z →
     backend env (S k) r = Raise RateLimitError →
     run env self prompt overrides w
     = (Raise RateLimitError, record_request r (record_request r w))).
Proof.
  intros Hclash r k Hfirst.
  assert (Hlen : length (requests (record_request r w)) = S k).
  { simpl. rewrite length_app. simpl. subst k. lia. }
  unfold run, on_exception. change (max_tries - 1) with 2. split.
  - intros Hlate. rewrite retry_eq, (run_once_fails env _ _ _ _ _ Hclash Hfirst).
    cbn [is_RateLimitError]. fold r.
    by destruct (Z.leb_spec max_time (elapsed env 0)); [|lia].
  - intros Hearly Hlate Hsecond.
    rewrite (retry_again env _ _ _ _ w (record_request r w));
      [|by apply run_once_fails|exact Hearly].
    rewrite retry_eq.
    rewrite (run_once_fails env self prompt overrides (record_request r w)
               RateLimitError Hclash); [|by rewrite Hlen].
    cbn [is_RateLimitError]. change (client_api_key (record_request r w))
      with (client_api_key w). fold r.
    by destruct (Z.leb_spec max_time (elapsed env 1)); [|lia].
Qed.


(** *** Warnings *)

Lemma record_warnings_app (a b : list string) (w : world) :
  record_warnings (a ++ b) w = record_warnings b (record_warnings a w).
Proof. apply foldl_app. Qed.

Lemma check_finish_reason_flags (m : ChatMessage) (reason : option string)
    (w : world) :
  meta m !! "finish_reason" = Some (opt_str reason) →
  _check_finish_reason m w = (Ok tt, record_warnings (flagged reason) w).
Proof.
  intros Hreason. unfold _check_finish_reason. rewrite Hreason.
  rewrite bind_apply.
  destruct reason as [reason|]; [|reflexivity].
  cbn [opt_str is_str flagged].
  destruct (String.eqb reason "length"), (String.eqb reason "content_filter");
    reflexivity.
Qed.

Lemma mapM_check_flags (c : ChatCompletion) (reported : list (string * pyval))
    (chosen : list Choice) :
  ∀ (messages : list ChatMessage) (w : world),
    map meta messages
    = map (λ choice,
             {[ "model" := PStr (completion_model c);
                "index" := PInt (index choice);
                "finish_reason" := opt_str (finish_reason choice);
                "usage" := PDict reported ]}) chosen →
    ∃ units,
      mapM _check_finish_reason messages w
      = (Ok units,
         record_warnings
           (concat (map (λ ch, flagged (finish_reason ch)) chosen)) w).
Proof.
  induction chosen as [|choice chosen IH]; intros [|m messages] w Hmetas;
    try discriminate; [by exists []|].
  injection Hmetas as Hmeta Hmetas.
  change (mapM _check_finish_reason (m :: messages))
    with (y ← _check_finish_reason m;
          k ← mapM _check_finish_reason messages; mret (y :: k)).
  rewrite bind_apply,
    (check_finish_reason_flags m (finish_reason choice)) by (by rewrite Hmeta).
  cbv iota beta. rewrite bind_apply.
  destruct (IH messages (record_warnings (flagged (finish_reason choice)) w) Hmetas)
    as [units ->].
  exists (tt :: units). cbn [map concat]. by rewrite record_warnings_app.
Qed.

Lemma record_warnings_spec (msgs : list string) (w : world) :
  warnings (record_warnings msgs w) = warnings w ++ msgs
  ∧ callback_calls (record_warnings msgs w) = callback_calls w
  ∧ requests (record_warnings msgs w) = requests w.
Proof.
  revert w. induction msgs as [|msg msgs IH]; intros w.
  - by rewrite app_nil_r.
  - cbn [record_warnings foldl]. fold (record_warnings msgs (record_warning msg w)).
    destruct (IH (record_warning msg w)) as (-> & -> & ->).
    simpl. by rewrite <- app_assoc.
Qed.

(** X23: for a one-shot response that reports its usage, [run] logs one
    warning for each choice whose finish reason is "length" or
    "content_filter", in the order of the choices, and none for any other
    reason; such a finish reason is never an error, and the callback is not
    called. *)
Theorem run_finish_reason_warnings (self : AsyncGenerator) (prompt : string)
    (overrides : option kwargs) (w : world) (c : ChatCompletion)
    (reported : list (string * pyval)) :
  keyword_clash env (effective self overrides) = false →
  backend env (length (requests w))
    (sent self prompt overrides (client_api_key w)) = Ok (IsChatCompletion c) →
  usage c = Some reported →
  ∃ out w',
    run env self prompt overrides w = (Ok out, w')
    ∧ warnings w'
      = warnings w ++ concat (map (λ ch, flagged (finish_reason ch)) (choices c))
    ∧ callback_calls w' = callback_calls w.
Proof.
  intros Hclash Hanswer Hreported.
  set (r := sent self prompt overrides (client_api_key w)) in *.
  destruct (mapM_build_reported c reported (choices c) Hreported)
    as (messages & Hbuilt & _ & _ & Hmetas).
  destruct (mapM_check_flags c reported (choices c) messages
              (record_request r w) Hmetas) as [units Hcheck].
  eexists _, _. split.
  { apply retry_returns. rewrite run_once_eq, Hclash. cbv zeta. fold r.
    rewrite Hanswer. unfold decode. rewrite bind_apply.
    unfold lift at 1. rewrite Hbuilt. cbv iota beta.
    rewrite bind_apply, Hcheck. reflexivity. }
  destruct (record_warnings_spec
              (concat (map (λ ch, flagged (finish_reason ch)) (choices c)))
              (record_request r w)) as (-> & -> & _).
  done.
Qed.

End Run.

Import Samples.

Lemma run_refused_keywords_witness :
  run answering bare "hi" (Some {[ "stream" := PBool true ]}) start
  = (Raise TypeError, start).
Proof.
  apply (run_refused_keywords answering bare "hi"
           (Some {[ "stream" := PBool true ]}) start "stream").
  - exists (PBool true). vm_compute. reflexivity.
  - left. do 2 apply list_elem_of_further. apply list_elem_of_here.
Defined.

Lemma run_time_budget_witness :
  run late bare "hi" None start
  = (Raise RateLimitError,
     record_request (sent bare "hi" None (client_api_key start)) start).
Proof.
  apply (run_time_budget late bare "hi" None start).
  - vm_compute. reflexivity.
  - vm_compute. reflexivity.
  - vm_compute. discriminate.
Defined.


Lemma run_finish_reason_warnings_witness :
  ∃ out w',
    run answering bare "hi" None start = (Ok out, w')
    ∧ warnings w'
      = warnings start
        ++ concat (map (λ ch, flagged (finish_reason ch)) (choices two_choices))
    ∧ callback_calls w' = callback_calls start.
Proof.
  eapply (run_finish_reason_warnings answering bare "hi" None start two_choices);
    vm_compute; reflexivity.
Defined.

End RunProperties.

(** ** The provider, the generator it builds and the pipeline behind it *)
Module ProviderProperties.
Import OpenAI AdapterProperties CredentialProperties.
Section Provider.

Variable env : environment.

#[local] Abbreviation quiet m :=
  (∀ w : world, callback_calls (snd (m w)) = callback_calls w).

Lemma quiet_bind {A B} (m : M world A) (k : A → M world B) :
  quiet m → (∀ a, quiet (k a)) → quiet (m ≫= k).
Proof.
  intros Hm Hk w. rewrite bind_apply. specialize (Hm w).
  destruct (m w) as [[a|e] w']; simpl in *; [|done].
  by rewrite Hk.
Qed.

Lemma quiet_mapM {A B} (f : A → M world B) (l : list A) :
  (∀ a, quiet (f a)) → quiet (mapM f l).
Proof.
  intros Hf. induction l as [|a l IH]; [done|].
  cbn [mapM]. apply quiet_bind; [apply Hf|intros b].
  apply quiet_bind; [apply IH|done].
Qed.

Lemma quiet_check_finish_reason (message : ChatMessage) :
  quiet (_check_finish_reason message).
Proof.
  unfold _check_finish_reason.
  destruct (meta message !! "finish_reason") as [reason|]; [|done].
  apply quiet_bind; [|intros _]; by case (is_str reason _).
Qed.

Lemma last_step (chunk : option ChatCompletionChunk) (c : ChatCompletionChunk)
    (stream : list ChatCompletionChunk) :
  from_option Some chunk (last (c :: stream))
  = from_option Some (Some c) (last stream).
Proof.
  destruct stream as [|c' stream]; [reflexivity|].
  rewrite last_cons_cons.
  destruct (last (c' :: stream)) eqn:Hsome; [done|].
  by apply last_None in Hsome.
Qed.

(** Without a callback the loop over the chunks only remembers the last
    chunk. *)
Lemma consume_without_callback (self : AsyncGenerator)
    (stream : list ChatCompletionChunk) :
  streaming_callback self = None →
  ∀ chunk chunks w,
    consume env self stream chunk chunks w
    = (Ok (from_option Some chunk (last stream), chunks), w).
Proof.
  intros Hcb. induction stream as [|c stream IH]; intros chunk chunks w;
    rewrite consume_eq; [reflexivity|].
  rewrite Hcb, last_step.
  destruct (chunk_choices c); by rewrite IH.
Qed.

Lemma quiet_decode (self : AsyncGenerator) (kw : kwargs) (c : completion) :
  streaming_callback self = None → quiet (decode env self kw c).
Proof.
  intros Hcb. unfold decode. apply quiet_bind.
  - destruct c as [stream|c|stream|]; [|done|done|done].
    apply quiet_bind; [done|intros [|]]; [done|].
    apply quiet_bind.
    { intros w. by rewrite (consume_without_callback self _ Hcb). }
    intros [chunk chunks]. apply quiet_bind.
    { by destruct (broken_by stream). }
    intros _. apply quiet_bind; [|done].
    intros w. unfold lift. by destruct (_connect_chunks chunk chunks).
  - intros completions. apply quiet_bind; [|done].
    apply quiet_mapM, quiet_check_finish_reason.
Qed.

Lemma quiet_retry {A} (target : M world A) (limit : Z) (remaining : nat) :
  quiet target → ∀ attempt, quiet (retry env limit remaining attempt target).
Proof.
  intros Htarget. induction remaining as [|remaining IH]; intros attempt w;
    rewrite retry_eq; specialize (Htarget w);
    destruct (target w) as [[a|e] w1]; simpl in Htarget; try done.
  - by destruct (is_RateLimitError e).
  - destruct (is_RateLimitError e), (limit <=? elapsed env attempt)%Z; try done.
    by rewrite IH.
Qed.

(** A generator without a callback never calls one. *)
Lemma quiet_run (self : AsyncGenerator) (prompt : string)
    (overrides : option kwargs) :
  streaming_callback self = None → quiet (run env self prompt overrides).
Proof.
  intros Hcb. unfold run, on_exception. apply quiet_retry. intros w.
  rewrite run_once_eq. destruct (keyword_clash _ _); [done|]. cbv zeta.
  destruct (backend env _ _) as [c|e]; [|done].
  by rewrite (quiet_decode self _ c Hcb).
Qed.

(** X27: [run] never asks for a credential refresh, whatever the generator,
    the backend and the state of the credential: the number of refreshes, the
    credential and the key of the client are what they were, and every
    request sent carries the key that the client held when the call began. *)
Theorem run_never_refreshes (self : AsyncGenerator) (prompt : string)
    (overrides : option kwargs) (w : world) :
  refreshes (snd (run env self prompt overrides w)) = refreshes w
  ∧ _vertexai_creds (snd (run env self prompt overrides w)) = _vertexai_creds w
  ∧ client_api_key (snd (run env self prompt overrides w)) = client_api_key w
  ∧ Forall (λ r, req_api_key r = client_api_key w)
      (issued (run env self prompt overrides) w).
Proof.
  destruct (run_world env self prompt overrides w)
    as [Hsession (k & _ & _ & Hsent)].
  unfold session in Hsession. injection Hsession as Hr Hc Hk.
  repeat split; try done. rewrite Hsent. by apply Forall_replicate.
Qed.

(** X28: a generator without a streaming callback asks for no stream in any
    request and calls no callback.  Should the backend answer with a stream
    all the same, the chunks are read but their contents are dropped: the
    call returns one reply, the empty text. *)
Theorem run_without_callback (self : AsyncGenerator) (prompt : string)
    (overrides : option kwargs) (w : world) :
  streaming_callback self = None →
  Forall (λ r, req_stream r = false) (issued (run env self prompt overrides) w)
  ∧ callback_calls (snd (run env self prompt overrides w)) = callback_calls w
  ∧ ∀ stream final choice more,
      keyword_clash env (effective self overrides) = false →
      gt_1 (default (PInt 1) (effective self overrides !! "n")) = Ok false →
      backend env (length (requests w))
        (sent self prompt overrides (client_api_key w))
        = Ok (IsStream {| delivered := stream; broken_by := None |}) →
      last stream = Some final →
      chunk_choices final = choice :: more →
      replies <$> fst (run env self prompt overrides w) = Ok [""].
Proof.
  intros Hcb. split; [|split].
  - destruct (run_world env self prompt overrides w) as [_ (k & _ & _ & ->)].
    apply Forall_replicate. simpl. by rewrite Hcb.
  - by apply quiet_run.
  - intros stream final choice more Hclash Hn Hanswer Hlast Hchoices.
    set (r := sent self prompt overrides (client_api_key w)) in *.
    set (m := {| content := Py.join "" (map chunk_content []);
                 role := ASSISTANT; name := None;
                 meta := {[ "model" := PStr (chunk_model final);
                            "index" := PInt 0;
                            "finish_reason" := opt_str (delta_finish_reason choice);
                            "usage" := PDict [] ]} ∪ ∅ |}).
    assert (Hrun : ∃ w',
      run env self prompt overrides w
      = (Ok {| replies := map content [m]; metas := map meta [m] |}, w')).
    { edestruct (decode_returns self (effective self overrides) [m])
        as (w' & Hdecode & _); [| |exists w'].
      3: { apply retry_returns. rewrite run_once_eq, Hclash. cbv zeta. fold r.
           rewrite Hanswer. unfold decode. exact Hdecode. }
      - rewrite bind_apply. unfold lift at 1. rewrite Hn. cbv iota beta.
        rewrite bind_apply. cbn [delivered broken_by].
        rewrite (consume_without_callback self stream Hcb), Hlast.
        cbn [from_option]. rewrite bind_apply.
        unfold mret at 1, M_ret at 1. cbv iota beta.
        rewrite bind_apply. unfold lift at 1, _connect_chunks.
        rewrite Hchoices. reflexivity.
      - repeat constructor. by eexists. }
    destruct Hrun as [w' ->]. reflexivity.
Qed.

(** *** Construction *)

(** Looking an attribute up on the client sends nothing and calls no
    callback. *)
Lemma getattr_traffic (name : string) (w : world) :
  requests (snd (__getattr__ env name w)) = requests w
  ∧ callback_calls (snd (__getattr__ env name w)) = callback_calls w.
Proof.
  rewrite getattr_eq. cbv zeta.
  destruct (_vertexai_creds w) as [creds|];
    [|by destruct (client_has env name)].
  destruct (valid creds); [by destruct (client_has env name)|].
  destruct (refresh_reply env (refreshes w)) as [creds'|e]; [|done].
  destruct (valid creds'); [|done]. by destruct (client_has env name).
Qed.

(** [hasattr] on a name that the instance does not define. *)
Lemma hasattr_probe (name : string) (w : world) :
  bool_decide (name ∈ attributes) = false →
  hasattr env name w
  = match __getattr__ env name w with
    | (Ok _, w') => (Ok true, w')
    | (Raise AttributeError, w') => (Ok false, w')
    | (Raise e, w') => (Raise e, w')
    end.
Proof.
  intros Hforeign. unfold hasattr. rewrite Hforeign, bind_apply. unfold try.
  destruct (__getattr__ env name w) as [[a|e] w']; [reflexivity|].
  by destruct e.
Qed.

Lemma hasattr_traffic (name : string) (w : world) :
  requests (snd (hasattr env name w)) = requests w
  ∧ callback_calls (snd (hasattr env name w)) = callback_calls w.
Proof.
  unfold hasattr. destruct (bool_decide _); [done|].
  rewrite bind_apply. unfold try.
  pose proof (getattr_traffic name w) as Htraffic.
  destruct (__getattr__ env name w) as [[a|e] w']; [done|]. by destruct e.
Qed.

Lemma mapM_cons {A B} (f : A → M world B) (a : A) (l : list A) (w : world) :
  mapM f (a :: l) w
  = match f a w with
    | (Ok b, w1) =>
        match mapM f l w1 with
        | (Ok bs, w2) => (Ok (b :: bs), w2)
        | (Raise e, w2) => (Raise e, w2)
        end
    | (Raise e, w1) => (Raise e, w1)
    end.
Proof.
  change (mapM f (a :: l)) with (y ← f a; k ← mapM f l; mret (y :: k)).
  rewrite bind_apply. destruct (f a w) as [[b|e] w1]; [|reflexivity].
  rewrite bind_apply. by destruct (mapM f l w1) as [[bs|e] w2].
Qed.

Lemma probes_traffic (names : list string) :
  ∀ w, requests (snd (mapM (hasattr env) names w)) = requests w
       ∧ callback_calls (snd (mapM (hasattr env) names w)) = callback_calls w.
Proof.
  induction names as [|name names IH]; intros w; [done|].
  rewrite mapM_cons. pose proof (hasattr_traffic name w) as [Hr Hc].
  destruct (hasattr env name w) as [[b|e] w1]; [|done].
  pose proof (IH w1) as [Hr' Hc'].
  destruct (mapM (hasattr env) names w1) as [[bs|e] w2]; simpl in *;
    split; congruence.
Qed.

(** With a credential that is valid, or without one, the tests change
    nothing. *)
Lemma probes_usable (names : list string) (w : world) :
  from_option valid true (_vertexai_creds w) = true →
  ∃ probed, mapM (hasattr env) names w = (Ok probed, w).
Proof.
  intros Husable. induction names as [|name names [probed IH]];
    [by exists []|].
  rewrite mapM_cons.
  assert (Hone : ∃ b, hasattr env name w = (Ok b, w)).
  { unfold hasattr. destruct (bool_decide _); [by exists true|].
    rewrite bind_apply. unfold try. rewrite getattr_eq. cbv zeta.
    destruct (_vertexai_creds w) as [creds|].
    - simpl in Husable. rewrite Husable.
      destruct (client_has env name); by eexists.
    - destruct (client_has env name); by eexists. }
  destruct Hone as [b ->]. rewrite IH. by eexists.
Qed.

(** What [get_generator] returns is what [__init__] has set up, after the
    tests of the component decorator. *)
Lemma get_generator_built (provider : OpenAILLMProvider)
    (prompt0 : option string) (passed : kwargs)
    (generator : AsyncGenerator) (w0 : world) :
  get_generator env provider prompt0 (Some passed) = Ok (generator, w0) →
  ∃ creds probed,
    mapM (hasattr env) component_probes (new_world (_api_key provider) creds)
    = (Ok probed, w0)
    ∧ (String.prefix "google/" (_generation_model provider) = false
       → creds = None).
Proof.
  intros Hbuilt. unfold get_generator, AsyncGenerator_call in Hbuilt.
  rewrite bind_result in Hbuilt.
  destruct (__init__ _ _ _ _ _ _ _ _ _) as [[self w]|e] eqn:Hinit;
    [|discriminate].
  destruct (mapM (hasattr env) component_probes w) as [[probed|e] w'] eqn:Hprobes;
    [|discriminate].
  injection Hbuilt as _ <-.
  unfold __init__ in Hinit. rewrite bind_result in Hinit.
  destruct (String.prefix "google/" (_generation_model provider)).
  - rewrite bind_result in Hinit.
    destruct (auth_default env) as [creds|e]; [|discriminate].
    injection Hinit as _ <-. by exists (Some creds), probed.
  - injection Hinit as _ <-. by exists None, probed.
Qed.

(** X29: [get_generator] called without generation options raises TypeError.
    A generator that it does build has no streaming callback: in every call
    of [run] on it, each request names the provider's model, asks for no
    stream and carries the key of the client, and no callback is called.  The
    world it starts in has sent nothing and called no callback; for a model
    that is no Vertex AI one, its client holds the provider's key and there
    is no credential. *)
Theorem get_generator_never_streams (provider : OpenAILLMProvider)
    (prompt0 : option string) (passed : kwargs)
    (generator : AsyncGenerator) (w0 : world) :
  get_generator env provider prompt0 (Some passed) = Ok (generator, w0) →
  get_generator env provider prompt0 None = Raise TypeError
  ∧ requests w0 = []
  ∧ callback_calls w0 = []
  ∧ (String.prefix "google/" (_generation_model provider) = false
     → w0 = new_world (_api_key provider) None)
  ∧ ∀ prompt overrides w,
      let sending := issued (run env generator prompt overrides) w in
      (if keyword_clash env (effective generator overrides)
       then sending = [] else sending ≠ [])
      ∧ Forall (λ r, req_model r = _generation_model provider
                     ∧ req_stream r = false
                     ∧ req_api_key r = client_api_key w) sending
      ∧ callback_calls (snd (run env generator prompt overrides w))
        = callback_calls w.
Proof.
  intros Hbuilt. split; [reflexivity|].
  destruct (get_generator_options env provider prompt0 passed generator w0 Hbuilt)
    as (_ & Hmodel & Hcb).
  destruct (get_generator_built provider prompt0 passed generator w0 Hbuilt)
    as (creds & probed & Hprobes & Hplain).
  destruct (probes_traffic component_probes (new_world (_api_key provider) creds))
    as [Hrequests Hcalls].
  rewrite Hprobes in Hrequests, Hcalls.
  split; [exact Hrequests|]. split; [exact Hcalls|]. split.
  - intros Hmodel'. rewrite (Hplain Hmodel') in Hprobes.
    destruct (probes_usable component_probes (new_world (_api_key provider) None))
      as [probed' Hsame]; [reflexivity|].
    congruence.
  - intros prompt overrides w. cbv zeta.
    destruct (issued_all env
                (λ r, req_model r = _generation_model provider
                      ∧ req_stream r = false
                      ∧ req_api_key r = client_api_key w)
                generator prompt overrides w) as [Hsome Hall].
    { simpl. by rewrite Hcb, Hmodel. }
    split; [exact Hsome|]. split; [exact Hall|]. by apply quiet_run.
Qed.

(** X31: building a generator for a Vertex AI model whose credential is not
    valid yet (as [google.auth.default] hands it out) refreshes the
    credential during construction, through the first [hasattr] test of the
    component decorator.  When the refresh makes the credential valid, the
    generator is built and its client holds the token of the refresh in
    place of the provider's key, after exactly one refresh.  When the
    refresh leaves the credential invalid, the construction raises
    RuntimeError; when the refresh raises (anything but AttributeError), the
    construction raises that error.  No request is sent. *)
Theorem get_generator_refreshes_at_construction (provider : OpenAILLMProvider)
    (prompt0 : option string) (passed : kwargs) (creds : Credentials) :
  String.prefix "google/" (_generation_model provider) = true →
  auth_default env = Ok creds →
  valid creds = false →
  match refresh_reply env 0 with
  | Ok creds' =>
      if valid creds'
      then ∃ generator,
             get_generator env provider prompt0 (Some passed)
             = Ok (generator,
                   set_client_api_key (token creds')
                     (record_refresh (Some creds')
                        (new_world (_api_key provider) (Some creds))))
      else get_generator env provider prompt0 (Some passed)
           = Raise (RuntimeError "Unable to refresh auth")
  | Raise e =>
      e ≠ AttributeError →
      get_generator env provider prompt0 (Some passed) = Raise e
  end.
Proof.
  intros Hvertex Hdefault Hinvalid.
  set (w := new_world (_api_key provider) (Some creds)).
  assert (Hfirst :
    hasattr env "__haystack_output__" w
    = match refresh_reply env 0 with
      | Ok creds' =>
          if valid creds'
          then (Ok (client_has env "__haystack_output__"),
                set_client_api_key (token creds')
                  (record_refresh (Some creds') w))
          else (Raise (RuntimeError "Unable to refresh auth"),
                record_refresh (Some creds') w)
      | Raise e =>
          (match e with AttributeError => Ok false | _ => Raise e end,
           record_refresh (Some creds) w)
      end).
  { rewrite hasattr_probe by reflexivity. rewrite getattr_eq. cbv zeta.
    cbn [_vertexai_creds refreshes w new_world]. rewrite Hinvalid.
    destruct (refresh_reply env 0) as [creds'|e]; [|by destruct e].
    destruct (valid creds'); [|reflexivity].
    by destruct (client_has env "__haystack_output__"). }
  assert (Hcall : ∀ outcome,
    mapM (hasattr env) component_probes w = outcome →
    get_generator env provider prompt0 (Some passed)
    = match outcome with
      | (Ok _, w') =>
          Ok ({| api_key := _api_key provider;
                 model := _generation_model provider;
                 streaming_callback := None;
                 api_base_url := Some (_api_base provider);
                 organization := None; system_prompt := prompt0;
                 generation_kwargs := _model_kwargs provider ∪ passed;
                 timeout := _timeout provider |}, w')
      | (Raise e, _) => Raise e
      end).
  { intros outcome <-. unfold get_generator, AsyncGenerator_call, __init__.
    rewrite Hvertex, Hdefault. reflexivity. }
  unfold component_probes in Hcall.
  destruct (refresh_reply env 0) as [creds'|e].
  - destruct (valid creds') eqn:Hvalid.
    + destruct (probes_usable ["__haystack_input__"]
                  (set_client_api_key (token creds')
                     (record_refresh (Some creds') w)))
        as [probed Hrest]; [exact Hvalid|].
      rewrite (Hcall _ eq_refl), mapM_cons, Hfirst, Hrest. by eexists.
    + by rewrite (Hcall _ eq_refl), mapM_cons, Hfirst.
  - intros He. rewrite (Hcall _ eq_refl), mapM_cons, Hfirst. by destruct e.
Qed.

End Provider.

Import Samples.

Lemma run_without_callback_witness :
  Forall (λ r, req_stream r = false) (issued (run answering bare "hi" None) start)
  ∧ callback_calls (snd (run answering bare "hi" None start)) = [].
Proof.
  destruct (run_without_callback answering bare "hi" None start eq_refl)
    as (Hrequests & Hcalls & _).
  split; [exact Hrequests|exact Hcalls].
Defined.

Lemma get_generator_never_streams_witness :
  ∃ generator w0,
    get_generator answering provider None (Some semantic_kwargs)
    = Ok (generator, w0)
    ∧ get_generator answering provider None None = Raise TypeError
    ∧ requests w0 = []
    ∧ w0 = new_world "sk-test" None
    ∧ issued (run answering generator "hi" None) w0 ≠ []
    ∧ callback_calls (snd (run answering generator "hi" None w0)) = [].
Proof.
  eexists _, _. split; [reflexivity|].
  destruct (get_generator_never_streams answering provider None semantic_kwargs
              _ _ eq_refl) as (Hnone & Hrequests & _ & Hplain & Hrun).
  destruct (Hrun "hi" None (new_world "sk-test" None)) as (Hsome & _ & Hcalls).
  split; [exact Hnone|]. split; [exact Hrequests|].
  split; [apply Hplain; reflexivity|]. split; [exact Hsome|exact Hcalls].
Defined.

Lemma get_generator_refreshes_at_construction_witness :
  ∃ generator,
    get_generator answering vertex_provider None (Some semantic_kwargs)
    = Ok (generator,
          set_client_api_key (Some "ya29.fresh")
            (record_refresh (Some fresh)
               (new_world "sk-test" (Some unrefreshed)))).
Proof.
  apply (get_generator_refreshes_at_construction answering vertex_provider None
           semantic_kwargs unrefreshed); reflexivity.
Defined.

End ProviderProperties.

(** ** From the generator to the pipeline: [normalize] on the output of [run] *)
Module PipelineProperties.
Import OpenAI AdapterProperties.
Section Pipeline.

Variable env : environment.
Variable loads : string → option pyval.
Variable dumps : gmap string pyval → bool.

Lemma as_dict_replies (out : run_output) :
  as_dict out !! "replies" = Some (PList (map PStr (replies out))).
Proof. unfold as_dict. by rewrite lookup_insert_eq. Qed.

(** X30: [normalize] applied to what [run] returns for a one-shot response
    that reports its usage.  When [orjson.dumps] refuses that output (its
    metadata hold the usage as the backend reported it), [normalize] raises
    TypeError.  Otherwise it looks at the first choice only: a response
    without choices makes it raise IndexError; a first choice whose content,
    once cleaned, does not decode (a content that is missing counts as the
    empty text) makes it raise KeyError; otherwise the mapping is built from
    the models of the decoded content.  The other choices play no part. *)
Theorem run_then_normalize (self : AsyncGenerator) (prompt : string)
    (overrides : option kwargs) (w : world) (c : ChatCompletion)
    (reported : list (string * pyval)) :
  keyword_clash env (effective self overrides) = false →
  backend env (length (requests w))
    (sent self prompt overrides (client_api_key w)) = Ok (IsChatCompletion c) →
  usage c = Some reported →
  ∃ out w',
    run env self prompt overrides w = (Ok out, w')
    ∧ replies out
      = map (λ choice, default "" (message_content choice)) (choices c)
    ∧ metas out
      = map (λ choice,
               {[ "model" := PStr (completion_model c);
                  "index" := PInt (index choice);
                  "finish_reason" := opt_str (finish_reason choice);
                  "usage" := PDict reported ]}) (choices c)
    ∧ SemanticsDescription.normalize loads dumps (as_dict out)
      = if dumps (as_dict out) then
          match choices c with
          | [] => Raise IndexError
          | choice :: _ =>
              match loads (SemanticsDescription.cleaned
                             (default "" (message_content choice))) with
              | None => Raise (KeyError (PStr "models"))
              | Some decoded =>
                  models ← Py.getitem_str decoded "models";
                  models ← Py.iter models;
                  SemanticsDescription.by_name [] models
              end
          end
        else Raise TypeError.
Proof.
  intros Hclash Hanswer Hreported.
  destruct (decode_one_shot env self (effective self overrides) c reported
              (record_request (sent self prompt overrides (client_api_key w)) w)
              Hreported)
    as (w' & Hdecode & _).
  eexists _, w'. split.
  { apply retry_returns. rewrite run_once_eq, Hclash. cbv zeta.
    rewrite Hanswer. exact Hdecode. }
  split; [reflexivity|]. split; [reflexivity|].
  unfold SemanticsDescription.normalize.
  destruct (dumps _); [|reflexivity].
  rewrite bind_result, as_dict_replies.
  change (default PNone (Some ?v)) with v. cbn [replies].
  destruct (choices c) as [|choice others]; [reflexivity|].
  cbn [map Py.getitem_0]. rewrite bind_result. cbv iota beta.
  unfold SemanticsDescription.wrapper.
  by destruct (loads _).
Qed.

End Pipeline.

Import Samples.

Lemma run_then_normalize_witness :
  ∃ out w',
    run answering bare "hi" None start = (Ok out, w')
    ∧ replies out = ["first"; "second"]
    ∧ metas out
      = map (λ choice,
               {[ "model" := PStr "gpt-4o-mini";
                  "index" := PInt (index choice);
                  "finish_reason" := opt_str (finish_reason choice);
                  "usage" := PDict [("prompt_tokens", PInt 9);
                                    ("completion_tokens", PInt 2);
                                    ("total_tokens", PInt 11)] ]})
          (choices two_choices)
    ∧ SemanticsDescription.normalize Json.loads Json.dumps (as_dict out)
      = Raise (KeyError (PStr "models")).
Proof.
  destruct (run_then_normalize answering Json.loads Json.dumps bare "hi" None
              start two_choices _ eq_refl eq_refl eq_refl)
    as (out & w' & Hrun & Hreplies & Hmetas & Hnormalize).
  exists out, w'. split; [exact Hrun|]. split; [exact Hreplies|].
  split; [exact Hmetas|].
  rewrite Hnormalize.
  assert (Hout : Ok out = fst (run answering bare "hi" None start))
    by (by rewrite Hrun).
  vm_compute in Hout. injection Hout as ->. vm_compute. reflexivity.
Defined.

End PipelineProperties.
